(** * Bike factory management system: the production resource ledger

    A shallow embedding of the stock-changing handlers of [main.py]
    (station completion, bike assembly, order entry, order fulfilment,
    stock replenishment, user deletion, snapshot loading) together with
    the static tables they read, and the properties of the ledger they
    maintain.

    Python dictionaries with string keys are finite maps ([gmap string _]);
    the two static tables, whose iteration order decides which message is
    shown first, are association lists.  Python integers are [Z].  The
    module-level mutable globals are the fields of one [state] record that
    every handler threads explicitly. *)

From Stdlib Require Import ZArith Lia.
From stdpp Require Import gmap strings list fin_maps.

Local Open Scope string_scope.
Local Open Scope list_scope.
Local Open Scope Z_scope.

(** ** Static tables *)

(** A literal dictionary whose iteration order matters. *)
Fixpoint assoc {A : Type} (k : string) (d : list (string * A)) : option A :=
  match d with
  | [] => None
  | (k', v) :: d' => if decide (k = k') then Some v else assoc k d'
  end.

Definition BIKE_TYPE_PARTS : list (string * list (string * Z)) :=
  [ ("Sport",
      [("Tubular Steel", 2); ("Wheels", 2); ("Seats", 1); ("Gears", 1);
       ("Brakes", 1); ("Lights", 1)]);
    ("Tour",
      [("Tubular Steel", 3); ("Wheels", 2); ("Seats", 1); ("Gears", 2);
       ("Brakes", 2); ("Lights", 1)]);
    ("Commute",
      [("Tubular Steel", 2); ("Wheels", 2); ("Seats", 1); ("Gears", 1);
       ("Brakes", 1); ("Lights", 1)]);
    ("Electric",
      [("Tubular Steel", 2); ("Wheels", 2); ("Seats", 1); ("Gears", 1);
       ("Brakes", 1); ("Lights", 1); ("Motors", 1)]);
    ("Offroad",
      [("Tubular Steel", 3); ("Wheels", 2); ("Seats", 1); ("Gears", 2);
       ("Brakes", 2); ("Lights", 1); ("Shock Absorbers", 2)]) ].

Definition STATION_REQUIREMENTS : list (string * list (string * Z)) :=
  [ ("FrameWelded", [("Tubular Steel", 2)]);
    ("ForkWelded", [("Tubular Steel", 1)]);
    ("FrontForkAssembly", [("FrameWelded", 1); ("ForkWelded", 1)]);
    ("Painting", [("FrontForkAssembly", 1)]);
    ("PedalAddition", [("Painting", 1)]);
    ("WheelAddition", [("PedalAddition", 1)]);
    ("ChainGear", [("WheelAddition", 1)]);
    ("BrakeAddition", [("ChainGear", 1)]);
    ("LightAddition", [("BrakeAddition", 1)]);
    ("SeatInstallation", [("LightAddition", 1)]) ].

(** ** The mutable globals *)

(** An order is a dictionary of string fields. *)
Abbreviation order := (gmap string string).

Record state : Type := State {
  USER_DB : gmap string (string * string);
  INVENTORY_DATA : gmap string Z;
  BIKE_INVENTORY : gmap string Z;
  ORDERS : list order;
  PRODUCTION_STATUS : gmap string Z
}.

Definition set_USER_DB (f : gmap string (string * string) -> gmap string (string * string))
    (s : state) : state :=
  State (f (USER_DB s)) (INVENTORY_DATA s) (BIKE_INVENTORY s) (ORDERS s)
        (PRODUCTION_STATUS s).
Definition set_INVENTORY_DATA (f : gmap string Z -> gmap string Z) (s : state) : state :=
  State (USER_DB s) (f (INVENTORY_DATA s)) (BIKE_INVENTORY s) (ORDERS s)
        (PRODUCTION_STATUS s).
Definition set_BIKE_INVENTORY (f : gmap string Z -> gmap string Z) (s : state) : state :=
  State (USER_DB s) (INVENTORY_DATA s) (f (BIKE_INVENTORY s)) (ORDERS s)
        (PRODUCTION_STATUS s).
Definition set_ORDERS (f : list order -> list order) (s : state) : state :=
  State (USER_DB s) (INVENTORY_DATA s) (BIKE_INVENTORY s) (f (ORDERS s))
        (PRODUCTION_STATUS s).
Definition set_PRODUCTION_STATUS (f : gmap string Z -> gmap string Z) (s : state) : state :=
  State (USER_DB s) (INVENTORY_DATA s) (BIKE_INVENTORY s) (ORDERS s)
        (f (PRODUCTION_STATUS s)).

(** The module-level initial values. *)
Definition initial_state : state :=
  {| USER_DB := list_to_map
       [ ("admin", ("password", "Admin"));
         ("worker1", ("w123", "ProductionWorker"));
         ("manager1", ("m123", "InventoryManager"));
         ("sales1", ("s123", "Sales")) ];
     INVENTORY_DATA := list_to_map
       [ ("Tubular Steel", 20); ("Wheels", 20); ("Seats", 10); ("Gears", 15);
         ("Brakes", 15); ("Lights", 10); ("Motors", 5); ("Shock Absorbers", 5) ];
     BIKE_INVENTORY := list_to_map
       [ ("Sport", 0); ("Tour", 0); ("Commute", 0); ("Electric", 0); ("Offroad", 0) ];
     ORDERS := [];
     PRODUCTION_STATUS := list_to_map
       [ ("FrameWelded", 0); ("ForkWelded", 0); ("FrontForkAssembly", 0);
         ("Painting", 0); ("PedalAddition", 0); ("WheelAddition", 0);
         ("ChainGear", 0); ("BrakeAddition", 0); ("LightAddition", 0);
         ("SeatInstallation", 0) ] |}.

(** ** How a handler ends *)

(** The warning dialogs of the handlers, by title, with the values their
    texts show. *)
Inductive warning : Type :=
  | NotEnoughInventory (station_key req_key : string) (req_amount available : Z)
  | NotEnoughComponents (station_key req_key : string) (req_amount available : Z)
  | UnknownRequirement (req_key : string)
  | NoRecipe (model : string)
  | NotEnoughParts (model part : string) (needed have : Z)
  | NoPreAssembledBikes (model : string)
  | UserNotFound (uname : string)
  | CannotDelete.

Inductive exn : Type :=
  | KeyError (key : string).

(** [Refreshed]: the handler ran to its end, the closing
    [refresh_all_tabs()] included.  [Warned]: it showed a warning and
    returned.  [Returned]: it returned without showing anything.
    [Raised]: an exception left it. *)
Inductive outcome : Type :=
  | Refreshed
  | Warned (w : warning)
  | Returned
  | Raised (e : exn).

Definition is_error (o : outcome) : Prop :=
  match o with
  | Warned _ | Raised _ => True
  | Refreshed | Returned => False
  end.

(** A statement runs on the globals and either goes on with a value or
    leaves the handler early. *)
Definition M (A : Type) : Type := state -> (A + outcome) * state.

Definition ret {A} (a : A) : M A := fun s => (inl a, s).
Definition bind {A B} (m : M A) (k : A -> M B) : M B :=
  fun s => match m s with
           | (inl a, s') => k a s'
           | (inr o, s') => (inr o, s')
           end.
Definition leave {A} (o : outcome) : M A := fun s => (inr o, s).
Definition gets {A} (f : state -> A) : M A := fun s => (inl (f s), s).
Definition modify (f : state -> state) : M unit := fun s => (inl tt, f s).

Notation "x <- m ;; k" := (bind m (fun x => k))
  (at level 100, m at next level, right associativity).
Notation "m ;;; k" := (bind m (fun _ => k))
  (at level 100, right associativity).

(** [for x in xs: body x]. *)
Fixpoint for_ {A} (xs : list A) (body : A -> M unit) : M unit :=
  match xs with
  | [] => ret tt
  | x :: xs' => body x ;;; for_ xs' body
  end.

(** ** ReportsTab.create_orders_bar_chart *)

(** [model_counts[model] += 1] on a [defaultdict(int)], which keeps the
    order in which the models were first seen. *)
Fixpoint increment (model : string) (model_counts : list (string * Z))
    : list (string * Z) :=
  match model_counts with
  | [] => [(model, 1)]
  | (m, count) :: model_counts' =>
      if decide (model = m)
      then (m, count + 1) :: model_counts'
      else (m, count) :: increment model model_counts'
  end.

(** The loop over [ORDERS]; [order["bike_model"]] may raise. *)
Fixpoint count_models (orders : list order) (model_counts : list (string * Z))
    : exn + list (string * Z) :=
  match orders with
  | [] => inr model_counts
  | o :: orders' =>
      match o !! "bike_model" with
      | Some model => count_models orders' (increment model model_counts)
      | None => inl (KeyError "bike_model")
      end
  end.

(** The bars of the chart: each category with the value appended for it. *)
Definition create_orders_bar_chart (s : state) : exn + list (string * Z) :=
  count_models (ORDERS s) [].

(** ** MainWindow.refresh_all_tabs

    The views are rebuilt from the globals.  The dashboard label, the
    parts table, the bike table and the pending orders table read the
    ledger through [items()] and [get] only; the orders-by-model chart
    indexes [order["bike_model"]] and is the one view that can raise on
    the dictionaries of [state].  (The maintenance, schedule and shift
    lists are not part of [state].) *)

(** Every order names its bike model. *)
Definition orders_name_models (s : state) : Prop :=
  Forall (fun o : order => is_Some (o !! "bike_model")) (ORDERS s).

(** How a refresh of all tabs ends. *)
Definition refresh_outcome (s : state) : outcome :=
  match create_orders_bar_chart s with
  | inl e => Raised e
  | inr _ => Refreshed
  end.

(** The end of a handler that reaches its closing refresh in [s]. *)
Definition refreshed (s : state) : outcome * state := (refresh_outcome s, s).

Definition refresh_all_tabs : M unit :=
  fun s => match create_orders_bar_chart s with
           | inl e => (inr (Raised e), s)
           | inr _ => (inl tt, s)
           end.

(** A handler called from the event loop: its statements, then the
    closing [self.main_window.refresh_all_tabs()].  A [return] before
    that line leaves without refreshing. *)
Definition handler (m : M unit) (s : state) : outcome * state :=
  match (m ;;; refresh_all_tabs) s with
  | (inl _, s') => (Refreshed, s')
  | (inr o, s') => (o, s')
  end.

(** ** Dictionary statements *)

(** [d[k]]: the value, or [KeyError]. *)
Definition getitem {V} (d : state -> gmap string V) (k : string) : M V :=
  fun s => match d s !! k with
           | Some v => (inl v, s)
           | None => (inr (Raised (KeyError k)), s)
           end.

(** [d[k] += a]: reads [d[k]] (or [KeyError]) and then stores. *)
Definition iadd (d : state -> gmap string Z)
    (set_d : (gmap string Z -> gmap string Z) -> state -> state)
    (k : string) (a : Z) : M unit :=
  v <- getitem d k ;; modify (set_d (insert k (v + a))).

(** [d[k] -= a]. *)
Definition isub (d : state -> gmap string Z)
    (set_d : (gmap string Z -> gmap string Z) -> state -> state)
    (k : string) (a : Z) : M unit :=
  v <- getitem d k ;; modify (set_d (insert k (v - a))).

(** ** DashboardTab.record_station_completion *)

(** The body of the loop under [# Check requirements]. *)
Definition check_requirement (station_key : string) (req : string * Z) : M unit :=
  let '(req_key, req_amount) := req in
  inventory <- gets INVENTORY_DATA ;;
  production <- gets PRODUCTION_STATUS ;;
  match inventory !! req_key with
  | Some available =>
      if available <? req_amount
      then leave (Warned (NotEnoughInventory station_key req_key req_amount available))
      else ret tt
  | None =>
      match production !! req_key with
      | Some available =>
          if available <? req_amount
          then leave (Warned (NotEnoughComponents station_key req_key req_amount available))
          else ret tt
      | None => leave (Warned (UnknownRequirement req_key))
      end
  end.

(** The body of the loop under [# Deduct them]. *)
Definition deduct_requirement (req : string * Z) : M unit :=
  let '(req_key, req_amount) := req in
  inventory <- gets INVENTORY_DATA ;;
  match inventory !! req_key with
  | Some _ => isub INVENTORY_DATA set_INVENTORY_DATA req_key req_amount
  | None => isub PRODUCTION_STATUS set_PRODUCTION_STATUS req_key req_amount
  end.

Definition record_station_completion (station_key : string)
    : state -> outcome * state :=
  handler (
    let requirements := default [] (assoc station_key STATION_REQUIREMENTS) in
    for_ requirements (check_requirement station_key) ;;;
    for_ requirements deduct_requirement ;;;
    iadd PRODUCTION_STATUS set_PRODUCTION_STATUS station_key 1).

(** ** InventoryTab.replenish_stock

    [comp] is the combo box text and [amount] the spin box value. *)
Definition replenish_stock (comp : string) (amount : Z) : state -> outcome * state :=
  handler (iadd INVENTORY_DATA set_INVENTORY_DATA comp amount).

(** The range given to the spin box, [setRange(1, 1000)]. *)
Definition replenish_spin_range (amount : Z) : Prop := 1 <= amount <= 1000.

(** ** BikeAssemblyTab.assemble_bike

    [model] is the combo box text. *)
Definition check_part (model : string) (req : string * Z) : M unit :=
  let '(part, needed) := req in
  have <- gets (fun s => default 0 (INVENTORY_DATA s !! part)) ;;
  if have <? needed
  then leave (Warned (NotEnoughParts model part needed have))
  else ret tt.

Definition deduct_part (req : string * Z) : M unit :=
  let '(part, needed) := req in
  isub INVENTORY_DATA set_INVENTORY_DATA part needed.

Definition assemble_bike (model : string) : state -> outcome * state :=
  handler (
    match assoc model BIKE_TYPE_PARTS with
    | None => leave (Warned (NoRecipe model))
    | Some recipe =>
        for_ recipe (check_part model) ;;;
        for_ recipe deduct_part ;;;
        iadd BIKE_INVENTORY set_BIKE_INVENTORY model 1
    end).

(** ** OrderEntryTab.submit_order *)

(** The texts of the three line edits and the seven combo boxes. *)
Record order_form : Type := OrderForm {
  customer_name : string;
  contact_info : string;
  delivery_address : string;
  bike_model : string;
  bike_size : string;
  bike_color : string;
  wheel_size : string;
  gears : string;
  brakes : string;
  lights : string
}.

Definition new_order (f : order_form) : order :=
  list_to_map
    [ ("customer_name", customer_name f);
      ("contact_info", contact_info f);
      ("delivery_address", delivery_address f);
      ("bike_model", bike_model f);
      ("bike_size", bike_size f);
      ("bike_color", bike_color f);
      ("wheel_size", wheel_size f);
      ("gears", gears f);
      ("brakes", brakes f);
      ("lights", lights f);
      ("status", "Pending") ].

Definition submit_order (f : order_form) : state -> outcome * state :=
  handler (modify (set_ORDERS (fun orders => orders ++ [new_order f]))).

(** ** PendingOrdersTab.mark_completed *)

Definition is_pending (o : order) : bool :=
  bool_decide (o !! "status" = Some "Pending").

(** [[o for o in ORDERS if o.get("status") == "Pending"]].  The Python list
    holds the very dictionaries of [ORDERS]; each is kept here with its
    position in [ORDERS], through which the later store reaches it. *)
Fixpoint pending_from (i : nat) (orders : list order) : list (nat * order) :=
  match orders with
  | [] => []
  | o :: orders' =>
      if is_pending o
      then (i, o) :: pending_from (S i) orders'
      else pending_from (S i) orders'
  end.

Definition pending_orders (orders : list order) : list (nat * order) :=
  pending_from 0 orders.

(** [row_index] is the row of the button in the table, counted from 0. *)
Definition mark_completed (row_index : nat) : state -> outcome * state :=
  handler (
    orders <- gets ORDERS ;;
    match pending_orders orders !! row_index with
    | None => leave Returned
    | Some (ref, order) =>
        model <- (fun s => match order !! "bike_model" with
                           | Some m => (inl m, s)
                           | None => (inr (Raised (KeyError "bike_model")), s)
                           end) ;;
        have <- gets (fun s => default 0 (BIKE_INVENTORY s !! model)) ;;
        if have <? 1
        then leave (Warned (NoPreAssembledBikes model))
        else
          isub BIKE_INVENTORY set_BIKE_INVENTORY model 1 ;;;
          modify (set_ORDERS (alter (insert "status" "Completed") ref))
    end).

(** ** UserManagementTab.delete_user

    [confirmed] tells whether the confirmation dialog was answered Yes. *)
Definition delete_user (uname : string) (confirmed : bool)
    : state -> outcome * state :=
  handler (
    users <- gets USER_DB ;;
    match users !! uname with
    | None => leave (Warned (UserNotFound uname))
    | Some _ =>
        if decide (uname = "admin")
        then leave (Warned CannotDelete)
        else if confirmed
             then modify (set_USER_DB (delete uname))
             else leave Returned
    end).

(** ** MainWindow._load_data

    The effect of loading a file that was chosen and parsed without
    error.  [snapshot] is the parsed file restricted to the sections of the
    ledger; a section the file does not have is [None]. *)
Record snapshot : Type := Snapshot {
  users : option (gmap string (string * string));
  inventory : option (gmap string Z);
  bike_inventory : option (gmap string Z);
  orders : option (list order);
  production : option (gmap string Z)
}.

Definition _load_data (loaded_data : snapshot) (s : state) : state :=
  {| USER_DB := default (USER_DB s) (users loaded_data);
     INVENTORY_DATA := default ∅ (inventory loaded_data);
     BIKE_INVENTORY := default (BIKE_INVENTORY s) (bike_inventory loaded_data);
     ORDERS := default [] (orders loaded_data);
     PRODUCTION_STATUS := default ∅ (production loaded_data) |}.

(** ** The operations of the ledger *)

Inductive op : Type :=
  | AddStock (comp : string) (amount : Z)
  | CompleteStation (station_key : string)
  | Assemble (model : string)
  | SubmitOrder (f : order_form)
  | Fulfill (row_index : nat).

Definition run (o : op) : state -> outcome * state :=
  match o with
  | AddStock comp amount => replenish_stock comp amount
  | CompleteStation station_key => record_station_completion station_key
  | Assemble model => assemble_bike model
  | SubmitOrder f => submit_order f
  | Fulfill row_index => mark_completed row_index
  end.

(** What the widgets allow as arguments. *)
Definition op_ok (o : op) : Prop :=
  match o with
  | AddStock _ amount => replenish_spin_range amount
  | _ => True
  end.

Fixpoint run_all (os : list op) (s : state) : state :=
  match os with
  | [] => s
  | o :: os' => run_all os' (run o s).2
  end.

Inductive reachable : state -> Prop :=
  | reachable_initial : reachable initial_state
  | reachable_step s o : reachable s -> op_ok o -> reachable (run o s).2.

(** Every quantity of the three ledgers is at least 0. *)
Definition nonneg (s : state) : Prop :=
  (forall k v, INVENTORY_DATA s !! k = Some v -> 0 <= v) /\
  (forall k v, PRODUCTION_STATUS s !! k = Some v -> 0 <= v) /\
  (forall k v, BIKE_INVENTORY s !! k = Some v -> 0 <= v).

(** ** Resolution of a requirement, in the words of the specification *)

(** The two ledgers a station requirement can draw from. *)
Inductive source : Type :=
  | PartRef
  | StationRef.

#[global] Instance source_eq_dec : EqDecision source.
Proof. solve_decision. Defined.

Definition ledger (src : source) : state -> gmap string Z :=
  match src with
  | PartRef => INVENTORY_DATA
  | StationRef => PRODUCTION_STATUS
  end.

Definition set_ledger (src : source)
    : (gmap string Z -> gmap string Z) -> state -> state :=
  match src with
  | PartRef => set_INVENTORY_DATA
  | StationRef => set_PRODUCTION_STATUS
  end.

Definition other (src : source) : source :=
  match src with
  | PartRef => StationRef
  | StationRef => PartRef
  end.

(** The parts ledger first; the station counts only when the id is absent
    from the parts ledger; nothing when it is absent from both. *)
Definition resolve (s : state) (resource_id : string) : option source :=
  match INVENTORY_DATA s !! resource_id with
  | Some _ => Some PartRef
  | None =>
      match PRODUCTION_STATUS s !! resource_id with
      | Some _ => Some StationRef
      | None => None
      end
  end.

Definition available (s : state) (src : source) (resource_id : string) : Z :=
  default 0 (ledger src s !! resource_id).

(** The requirement resolves and its source holds enough. *)
Definition sufficient (s : state) (req : string * Z) : Prop :=
  match resolve s req.1 with
  | Some src => req.2 <= available s src req.1
  | None => False
  end.

(** The warning of an insufficient source. *)
Definition insufficient (src : source) : string -> string -> Z -> Z -> warning :=
  match src with
  | PartRef => NotEnoughInventory
  | StationRef => NotEnoughComponents
  end.

(** Deducting a requirement from a given source. *)
Definition deduct_at (src : source) (req : string * Z) : M unit :=
  isub (ledger src) (set_ledger src) req.1 req.2.

(** The ledger the deduction loop of a station writes to for an id, when
    the ids resolve as in [s0]: the [else] branch is the station counts. *)
Definition deduct_source (s0 : state) (resource_id : string) : source :=
  default StationRef (resolve s0 resource_id).

(** A stocked requirement: the source holds a value of at least the amount. *)
Definition stocked (pick : string -> source) (s : state) (req : string * Z) : Prop :=
  exists v, ledger (pick req.1) s !! req.1 = Some v /\ req.2 <= v.

(** The three dictionaries no deduction touches. *)
Definition same_frame (s s' : state) : Prop :=
  USER_DB s' = USER_DB s /\ BIKE_INVENTORY s' = BIKE_INVENTORY s /\
  ORDERS s' = ORDERS s.

(** Every station and every model of the static tables has its counter. *)
Definition well_keyed (s : state) : Prop :=
  (forall k reqs, assoc k STATION_REQUIREMENTS = Some reqs ->
                  is_Some (PRODUCTION_STATUS s !! k)) /\
  (forall k recipe, assoc k BIKE_TYPE_PARTS = Some recipe ->
                    is_Some (BIKE_INVENTORY s !! k)).



(** The order form as it is when the tab opens: the line edits empty, the
    combo boxes on their first entries. *)
Definition blank_form : order_form :=
  OrderForm "" "" "" "Sport" "Small" "Red" "26 inches" "Standard Gears"
            "Disc Brakes" "LED Lights".

(** The same form with the line edits filled in, for a Tour bike. *)
Definition tour_form : order_form :=
  OrderForm "A. Rider" "rider@example.org" "1 Mill Lane" "Tour" "Medium" "Blue"
            "29 inches" "Standard Gears" "Disc Brakes" "LED Lights".

(** Any number of clicks on Delete buttons, each with the answer given to
    its confirmation dialog. *)
Fixpoint delete_users (clicks : list (string * bool)) (s : state) : state :=
  match clicks with
  | [] => s
  | (uname, confirmed) :: clicks' =>
      delete_users clicks' (delete_user uname confirmed s).2
  end.

(** A file saved without its production section, as [_load_data] accepts
    it: the station counts end up empty. *)
Definition snapshot_without_production : snapshot :=
  {| users := None;
     inventory := Some (INVENTORY_DATA initial_state);
     bike_inventory := None;
     orders := Some [];
     production := None |}.

(** A file whose finished-bike section is empty. *)
Definition snapshot_without_bikes : snapshot :=
  {| users := None;
     inventory := Some (INVENTORY_DATA initial_state);
     bike_inventory := Some ∅;
     orders := Some [];
     production := Some (PRODUCTION_STATUS initial_state) |}.



(** A file whose production section lacks the count of ForkWelded. *)
Definition snapshot_without_fork : snapshot :=
  {| users := None;
     inventory := Some (INVENTORY_DATA initial_state);
     bike_inventory := None;
     orders := Some [];
     production := Some (delete "ForkWelded" (PRODUCTION_STATUS initial_state)) |}.

(** ** DashboardTab.update_status_label

    [sum(1 for o in ORDERS if o.get("status") == status)]. *)
Fixpoint status_count (status : string) (orders : list order) : nat :=
  match orders with
  | [] => 0%nat
  | o :: orders' =>
      ((if bool_decide (o !! "status" = Some status) then 1 else 0) +
       status_count status orders')%nat
  end.

(** The three numbers of the order summary: total, pending, completed. *)
Definition order_summary (s : state) : nat * nat * nat :=
  (length (ORDERS s), status_count "Pending" (ORDERS s),
   status_count "Completed" (ORDERS s)).

(** ** Measures of the orders-by-model chart *)

(** The number of orders for a model. *)
Fixpoint orders_of_model (model : string) (orders : list order) : Z :=
  match orders with
  | [] => 0
  | o :: orders' =>
      (if bool_decide (o !! "bike_model" = Some model) then 1 else 0) +
      orders_of_model model orders'
  end.

Fixpoint sum_counts (model_counts : list (string * Z)) : Z :=
  match model_counts with
  | [] => 0
  | (_, count) :: model_counts' => count + sum_counts model_counts'
  end.

(** ** LoginDialog.attempt_login

    [username] and [password] are the texts of the line edits after
    [strip()], [selected_role] the text of the combo box.  The result is
    the role the dialog accepts with, or [None] for the Login Failed
    warning. *)
Definition attempt_login (username password selected_role : string) (s : state)
    : option string :=
  match USER_DB s !! username with
  | Some (stored_password, stored_role) =>
      if decide (password = stored_password /\ selected_role = stored_role)
      then Some stored_role
      else None
  | None => None
  end.

(** ** UserManagementTab.create_user

    [uname] and [pwd] are the texts of the line edits after [strip()]. *)
Inductive create_result : Type :=
  | UserCreated
  | InputError
  | DuplicateUser.

Definition create_user (uname pwd role : string) (s : state)
    : create_result * state :=
  if decide (uname = "") then (InputError, s)
  else match USER_DB s !! uname with
       | Some _ => (DuplicateUser, s)
       | None => (UserCreated, set_USER_DB (insert uname (pwd, role)) s)
       end.

(** The two actions of the user management tab. *)
Inductive user_action : Type :=
  | CreateUser (uname pwd role : string)
  | DeleteUser (uname : string) (confirmed : bool).

Definition run_user_action (a : user_action) (s : state) : state :=
  match a with
  | CreateUser uname pwd role => (create_user uname pwd role s).2
  | DeleteUser uname confirmed => (delete_user uname confirmed s).2
  end.

Fixpoint run_user_actions (acts : list user_action) (s : state) : state :=
  match acts with
  | [] => s
  | a :: acts' => run_user_actions acts' (run_user_action a s)
  end.

(** ** MainWindow._save_data

    The sections of the ledger in [data_to_save], for a file that was
    chosen and written without error. *)
Definition _save_data (s : state) : snapshot :=
  {| users := Some (USER_DB s);
     inventory := Some (INVENTORY_DATA s);
     bike_inventory := Some (BIKE_INVENTORY s);
     orders := Some (ORDERS s);
     production := Some (PRODUCTION_STATUS s) |}.

(** ** Measures over a run *)




(** The row designates a pending order that names its model, and a bike
    of that model is on hand: [mark_completed] reaches its two stores. *)
Definition completes_order (row_index : nat) (s : state) : Prop :=
  exists ref o model,
    pending_orders (ORDERS s) !! row_index = Some (ref, o) /\
    o !! "bike_model" = Some model /\
    1 <= default 0 (BIKE_INVENTORY s !! model).

(** Every order is Pending or Completed and names its bike model. *)
Definition orders_well_formed (s : state) : Prop :=
  Forall (fun o : order =>
            (o !! "status" = Some "Pending" \/ o !! "status" = Some "Completed") /\
            is_Some (o !! "bike_model"))
         (ORDERS s).

(** * Properties *)

(** ** Statements of the handlers *)

Ltac unfold_M :=
  unfold iadd, isub, getitem, bind, gets, modify, leave, ret in *.

(** *** The closing refresh *)

Lemma count_models_result orders :
  forall d,
    match count_models orders d with
    | inl e =>
        e = KeyError "bike_model" /\
        ~ Forall (fun o : order => is_Some (o !! "bike_model")) orders
    | inr _ => Forall (fun o : order => is_Some (o !! "bike_model")) orders
    end.
Proof.
  induction orders as [|o orders IH]; intros d; simpl; [constructor|].
  destruct (o !! "bike_model") as [model|] eqn:Em.
  - specialize (IH (increment model d)).
    destruct (count_models orders (increment model d)).
    + destruct IH as [-> Hn]. split; [reflexivity|].
      intros H. apply Forall_cons in H as [_ H]. exact (Hn H).
    + constructor; [rewrite Em; eauto | exact IH].
  - split; [reflexivity|]. intros H. apply Forall_cons in H as [[m Hm] _].
    rewrite Em in Hm. discriminate.
Qed.

Lemma refresh_outcome_cases s :
  (orders_name_models s /\ refresh_outcome s = Refreshed) \/
  (~ orders_name_models s /\ refresh_outcome s = Raised (KeyError "bike_model")).
Proof.
  unfold refresh_outcome, create_orders_bar_chart, orders_name_models.
  pose proof (count_models_result (ORDERS s) []) as H.
  destruct (count_models (ORDERS s) []).
  - destruct H as [-> Hn]. right. auto.
  - left. auto.
Qed.

Lemma refresh_outcome_named s :
  orders_name_models s -> refresh_outcome s = Refreshed.
Proof.
  intros H. destruct (refresh_outcome_cases s) as [[_ E]|[Hn _]];
    [exact E | contradiction].
Qed.


Lemma refresh_outcome_not_warned s w : refresh_outcome s <> Warned w.
Proof.
  destruct (refresh_outcome_cases s) as [[_ ->]|[_ ->]]; discriminate.
Qed.

Lemma refresh_outcome_orders s s' :
  ORDERS s' = ORDERS s -> refresh_outcome s' = refresh_outcome s.
Proof.
  intros E. unfold refresh_outcome, create_orders_bar_chart. rewrite E. reflexivity.
Qed.

Lemma handler_run m s :
  handler m s =
  match m s with
  | (inl _, s') => (refresh_outcome s', s')
  | (inr o, s') => (o, s')
  end.
Proof.
  unfold handler, bind, refresh_all_tabs, refresh_outcome.
  destruct (m s) as [[[]|o] s']; [|reflexivity].
  destruct (create_orders_bar_chart s'); reflexivity.
Qed.

Lemma for_app {A} (xs ys : list A) (body : A -> M unit) (s : state) :
  for_ (xs ++ ys) body s = (for_ xs body ;;; for_ ys body) s.
Proof.
  revert s. induction xs as [|x xs IH]; intros s; simpl.
  - reflexivity.
  - unfold bind in *. destruct (body x s) as [[[]|o] s1]; [apply IH | reflexivity].
Qed.

Lemma ledger_set_ledger src src' f s :
  ledger src (set_ledger src' f s) =
  if decide (src = src') then f (ledger src s) else ledger src s.
Proof. destruct src, src'; reflexivity. Qed.

Lemma resolve_ledger s k src :
  resolve s k = Some src -> is_Some (ledger src s !! k).
Proof.
  unfold resolve. destruct (INVENTORY_DATA s !! k) eqn:E1.
  - intros [= <-]. simpl. rewrite E1. eauto.
  - destruct (PRODUCTION_STATUS s !! k) eqn:E2; [|discriminate].
    intros [= <-]. simpl. rewrite E2. eauto.
Qed.

Lemma resolve_parts_first s k :
  (resolve s k = Some PartRef <-> is_Some (INVENTORY_DATA s !! k)) /\
  (resolve s k = Some StationRef <->
     INVENTORY_DATA s !! k = None /\ is_Some (PRODUCTION_STATUS s !! k)) /\
  (resolve s k = None <->
     INVENTORY_DATA s !! k = None /\ PRODUCTION_STATUS s !! k = None).
Proof.
  unfold resolve.
  destruct (INVENTORY_DATA s !! k), (PRODUCTION_STATUS s !! k);
    repeat split; try done; eauto; intros; try tauto;
    try (destruct H as [[? ?] ?]; done); try (destruct H as [? [? ?]]; done);
    try (destruct H; done).
Qed.

(** *** The check loop of a station *)

Lemma check_requirement_cases station_key req s :
  check_requirement station_key req s =
  match resolve s req.1 with
  | None => (inr (Warned (UnknownRequirement req.1)), s)
  | Some src =>
      if available s src req.1 <? req.2
      then (inr (Warned (insufficient src station_key req.1 req.2
                           (available s src req.1))), s)
      else (inl tt, s)
  end.
Proof.
  destruct req as [k a]. unfold check_requirement, resolve, available. unfold_M. simpl.
  destruct (INVENTORY_DATA s !! k) as [v|] eqn:E1; simpl.
  - rewrite E1. simpl. destruct (v <? a); reflexivity.
  - destruct (PRODUCTION_STATUS s !! k) as [v|] eqn:E2; simpl.
    + rewrite E2. simpl. destruct (v <? a); reflexivity.
    + reflexivity.
Qed.

Lemma check_requirement_sufficient station_key req s :
  sufficient s req -> check_requirement station_key req s = (inl tt, s).
Proof.
  rewrite check_requirement_cases. unfold sufficient.
  destruct (resolve s req.1); [|tauto].
  intros H. destruct (Z.ltb_spec (available s s0 req.1) req.2); [lia | reflexivity].
Qed.

Lemma check_loop_sufficient station_key reqs s :
  Forall (sufficient s) reqs ->
  for_ reqs (check_requirement station_key) s = (inl tt, s).
Proof.
  induction 1 as [|r reqs Hr _ IH]; simpl; [reflexivity|].
  unfold bind. rewrite check_requirement_sufficient by assumption. exact IH.
Qed.

Lemma check_loop_result station_key reqs s :
  match for_ reqs (check_requirement station_key) s with
  | (inl _, s') => s' = s /\ Forall (sufficient s) reqs
  | (inr o, s') => s' = s /\ exists w, o = Warned w
  end.
Proof.
  induction reqs as [|r reqs IH]; simpl.
  - split; [reflexivity | constructor].
  - unfold bind. rewrite check_requirement_cases.
    destruct (resolve s r.1) as [src|] eqn:Er.
    + destruct (Z.ltb_spec (available s src r.1) r.2) as [Hlt|Hge].
      * split; eauto.
      * destruct (for_ reqs (check_requirement station_key) s) as [[[]|o] s1].
        -- destruct IH as [-> IH]. split; [reflexivity|]. constructor; [|exact IH].
           unfold sufficient. rewrite Er. exact Hge.
        -- exact IH.
    + split; eauto.
Qed.

(** *** Deduction loops *)

Lemma for_ext {A} (xs : list A) (f g : A -> M unit) s :
  (forall x s, f x s = g x s) -> for_ xs f s = for_ xs g s.
Proof.
  intros E. revert s. induction xs as [|x xs IH]; intros s; simpl; [reflexivity|].
  unfold bind. rewrite E. destruct (g x s) as [[[]|o] s1]; [apply IH | reflexivity].
Qed.

Lemma deduct_at_cases src req s :
  deduct_at src req s =
  match ledger src s !! req.1 with
  | Some v => (inl tt, set_ledger src (insert req.1 (v - req.2)) s)
  | None => (inr (Raised (KeyError req.1)), s)
  end.
Proof.
  unfold deduct_at. unfold_M. destruct (ledger src s !! req.1); reflexivity.
Qed.

Lemma resolve_insert src k v s k' :
  is_Some (ledger src s !! k) ->
  resolve (set_ledger src (insert k v) s) k' = resolve s k'.
Proof.
  intros [w Hw]. unfold resolve.
  destruct src; simpl in *; destruct (decide (k = k')) as [->|Hne];
    rewrite ?lookup_insert_eq, ?Hw, ?lookup_insert_ne by assumption; reflexivity.
Qed.

Lemma deduct_at_resolve src req s r s1 :
  deduct_at src req s = (r, s1) -> forall k, resolve s1 k = resolve s k.
Proof.
  rewrite deduct_at_cases. destruct (ledger src s !! req.1) eqn:E.
  - intros [= <- <-] k. apply resolve_insert. rewrite E. eauto.
  - intros [= <- <-] k. reflexivity.
Qed.

Lemma deduct_requirement_source s0 s req :
  resolve s req.1 = resolve s0 req.1 ->
  deduct_requirement req s = deduct_at (deduct_source s0 req.1) req s.
Proof.
  intros E. unfold deduct_source. rewrite <- E. clear E.
  destruct req as [k a]. unfold deduct_requirement, deduct_at, resolve. simpl.
  unfold bind at 1. unfold gets.
  destruct (INVENTORY_DATA s !! k); [reflexivity|].
  destruct (PRODUCTION_STATUS s !! k); reflexivity.
Qed.

Lemma deduct_loop_source s0 reqs :
  forall s, (forall k, resolve s k = resolve s0 k) ->
  for_ reqs deduct_requirement s =
  for_ reqs (fun r => deduct_at (deduct_source s0 r.1) r) s.
Proof.
  induction reqs as [|r reqs IH]; intros s E; simpl; [reflexivity|].
  unfold bind. rewrite (deduct_requirement_source s0) by apply E.
  destruct (deduct_at (deduct_source s0 r.1) r s) as [[[]|o] s1] eqn:Ed;
    [|reflexivity].
  apply IH. intros k. rewrite (deduct_at_resolve _ _ _ _ _ Ed). apply E.
Qed.

Lemma assoc_None {A} k (d : list (string * A)) :
  k ∉ d.*1 -> assoc k d = None.
Proof.
  induction d as [|[k' v] d IH]; simpl; [reflexivity|].
  intros H. apply not_elem_of_cons in H as [Hne H].
  destruct (decide (k = k')); [contradiction | auto].
Qed.

Lemma assoc_elem_of {A} k v (d : list (string * A)) :
  assoc k d = Some v -> (k, v) ∈ d.
Proof.
  induction d as [|[k' v'] d IH]; simpl; [discriminate|].
  destruct (decide (k = k')) as [->|].
  - intros [= ->]. left.
  - intros H. right. auto.
Qed.

Lemma elem_of_assoc {A} k v (d : list (string * A)) :
  NoDup d.*1 -> (k, v) ∈ d -> assoc k d = Some v.
Proof.
  induction d as [|[k' v'] d IH]; simpl; intros Hnd Hin.
  - inversion Hin.
  - apply NoDup_cons in Hnd as [Hk' Hnd].
    apply elem_of_cons in Hin as [[= <- <-]|Hin].
    + destruct (decide (k = k)); [reflexivity | contradiction].
    + destruct (decide (k = k')) as [->|]; [|auto].
      exfalso. apply Hk'. apply list_elem_of_fmap. exists (k', v). auto.
Qed.

(** With distinct, stocked ids the loop runs through; each id loses its
    amount in its source and nothing else changes. *)
Lemma deduct_at_loop (pick : string -> source) reqs :
  forall s, NoDup reqs.*1 -> Forall (stocked pick s) reqs ->
  exists s',
    for_ reqs (fun r => deduct_at (pick r.1) r) s = (inl tt, s') /\
    same_frame s s' /\
    forall src k,
      ledger src s' !! k =
      if decide (src = pick k)
      then match assoc k reqs with
           | Some a => (fun v => v - a) <$> ledger src s !! k
           | None => ledger src s !! k
           end
      else ledger src s !! k.
Proof.
  induction reqs as [|[k0 a0] reqs IH]; intros s Hnd Hst; simpl.
  - exists s. split; [reflexivity|]. split; [done|].
    intros src k. destruct (decide (src = pick k)); reflexivity.
  - apply NoDup_cons in Hnd as [Hk0 Hnd].
    apply Forall_cons in Hst as [(v0 & Hv0 & Hle0) Hst]. simpl in *.
    unfold bind. rewrite deduct_at_cases. simpl. rewrite Hv0.
    set (s1 := set_ledger (pick k0) (insert k0 (v0 - a0)) s).
    assert (Hs1 : forall src k, k ≠ k0 -> ledger src s1 !! k = ledger src s !! k).
    { intros src k Hne. unfold s1. rewrite ledger_set_ledger.
      destruct (decide (src = pick k0)); [|reflexivity].
      rewrite lookup_insert_ne by congruence. reflexivity. }
    destruct (IH s1 Hnd) as (s' & Hrun & Hframe & Hl).
    { apply Forall_forall. intros [k a] Hin.
      rewrite Forall_forall in Hst. destruct (Hst _ Hin) as (v & Hv & Hle).
      exists v. simpl in *. split; [|exact Hle].
      rewrite Hs1; [exact Hv|].
      intros ->. apply Hk0. apply list_elem_of_fmap. exists (k0, a). auto. }
    exists s'. split; [exact Hrun|]. split.
    { destruct Hframe as (H1 & H2 & H3).
      unfold same_frame. rewrite H1, H2, H3. unfold s1.
      destruct (pick k0); done. }
    intros src k. rewrite Hl.
    destruct (decide (k = k0)) as [->|Hne].
    + rewrite (assoc_None k0 reqs Hk0). unfold s1. rewrite ledger_set_ledger.
      destruct (decide (src = pick k0)) as [->|]; [|reflexivity].
      rewrite lookup_insert_eq, Hv0. reflexivity.
    + rewrite Hs1 by assumption. reflexivity.
Qed.

(** *** Facts of the static tables *)

Lemma assoc_Forall {A} (P : string * A -> Prop) (d : list (string * A)) k v :
  Forall P d -> assoc k d = Some v -> P (k, v).
Proof.
  intros HF H. rewrite Forall_forall in HF. apply HF. apply assoc_elem_of, H.
Qed.

Lemma station_requirements_NoDup k :
  NoDup (default [] (assoc k STATION_REQUIREMENTS)).*1.
Proof.
  destruct (assoc k STATION_REQUIREMENTS) as [reqs|] eqn:E; simpl; [|constructor].
  apply (assoc_Forall (fun e => NoDup e.2.*1) _ _ _) in E; [exact E|].
  apply (bool_decide_unpack _). vm_compute. exact I.
Qed.

Lemma station_not_own_requirement k :
  k ∉ (default [] (assoc k STATION_REQUIREMENTS)).*1.
Proof.
  destruct (assoc k STATION_REQUIREMENTS) as [reqs|] eqn:E; simpl; [|apply not_elem_of_nil].
  apply (assoc_Forall (fun e => e.1 ∉ e.2.*1) _ _ _) in E; [exact E|].
  apply (bool_decide_unpack _). vm_compute. exact I.
Qed.

Lemma recipe_NoDup model recipe :
  assoc model BIKE_TYPE_PARTS = Some recipe -> NoDup recipe.*1.
Proof.
  intros E. apply (assoc_Forall (fun e => NoDup e.2.*1) _ _ _) in E; [exact E|].
  apply (bool_decide_unpack _). vm_compute. exact I.
Qed.

Lemma recipe_positive model recipe :
  assoc model BIKE_TYPE_PARTS = Some recipe -> Forall (fun r => 0 < r.2) recipe.
Proof.
  intros E.
  apply (assoc_Forall (fun e => Forall (fun r => 0 < r.2) e.2) _ _ _) in E; [exact E|].
  apply (bool_decide_unpack _). vm_compute. exact I.
Qed.

(** *** Station completion, case by case *)

Lemma sufficient_stocked s req :
  sufficient s req -> stocked (deduct_source s) s req.
Proof.
  unfold sufficient, stocked, deduct_source, available.
  destruct (resolve s req.1) as [src|] eqn:E; [|tauto]. simpl.
  destruct (resolve_ledger _ _ _ E) as [v Hv]. rewrite Hv. simpl. eauto.
Qed.

(** Either the check loop shows a warning and nothing has changed, or every
    requirement is sufficient, the deduction loop runs through, and the
    increment of the station's own count decides the outcome. *)
Lemma record_station_completion_cases station_key s :
  let reqs := default [] (assoc station_key STATION_REQUIREMENTS) in
  (exists w, record_station_completion station_key s = (Warned w, s) /\
             ~ Forall (sufficient s) reqs) \/
  (Forall (sufficient s) reqs /\
   exists s1,
     same_frame s s1 /\
     (forall src k,
        ledger src s1 !! k =
        if decide (src = deduct_source s k)
        then match assoc k reqs with
             | Some a => (fun v => v - a) <$> ledger src s !! k
             | None => ledger src s !! k
             end
        else ledger src s !! k) /\
     record_station_completion station_key s =
     match PRODUCTION_STATUS s1 !! station_key with
     | Some v => refreshed (set_PRODUCTION_STATUS (insert station_key (v + 1)) s1)
     | None => (Raised (KeyError station_key), s1)
     end).
Proof.
  intros reqs. unfold record_station_completion. fold reqs.
  pose proof (check_loop_result station_key reqs s) as Hc.
  destruct (for_ reqs (check_requirement station_key) s) as [[[]|o] s0] eqn:Ec.
  - destruct Hc as [-> Hsuf]. right. split; [exact Hsuf|].
    destruct (deduct_at_loop (deduct_source s) reqs s) as (s1 & Hrun & Hfr & Hl).
    { apply station_requirements_NoDup. }
    { eapply Forall_impl; [exact Hsuf | apply sufficient_stocked]. }
    exists s1. split; [exact Hfr|]. split; [exact Hl|].
    rewrite handler_run. unfold bind at 1. rewrite Ec.
    unfold bind at 1. rewrite (deduct_loop_source s) by reflexivity. rewrite Hrun.
    unfold_M. destruct (PRODUCTION_STATUS s1 !! station_key); reflexivity.
  - destruct Hc as [-> [w ->]]. left. exists w. split.
    { rewrite handler_run. unfold bind at 1. rewrite Ec. reflexivity. }
    intros Hsuf. rewrite (check_loop_sufficient station_key reqs s Hsuf) in Ec.
    discriminate.
Qed.

(** *** Bike assembly, case by case *)

Lemma check_part_cases model req s :
  check_part model req s =
  let have := default 0 (INVENTORY_DATA s !! req.1) in
  if have <? req.2
  then (inr (Warned (NotEnoughParts model req.1 req.2 have)), s)
  else (inl tt, s).
Proof.
  destruct req as [part needed]. unfold check_part. unfold_M. simpl.
  destruct (default 0 (INVENTORY_DATA s !! part) <? needed); reflexivity.
Qed.

Lemma check_part_loop_result model recipe s :
  match for_ recipe (check_part model) s with
  | (inl _, s') =>
      s' = s /\
      Forall (fun r => r.2 <= default 0 (INVENTORY_DATA s !! r.1)) recipe
  | (inr o, s') =>
      s' = s /\ (exists w, o = Warned w) /\
      ~ Forall (fun r => r.2 <= default 0 (INVENTORY_DATA s !! r.1)) recipe
  end.
Proof.
  induction recipe as [|r recipe IH]; simpl.
  - split; [reflexivity | constructor].
  - unfold bind. rewrite check_part_cases. simpl.
    destruct (Z.ltb_spec (default 0 (INVENTORY_DATA s !! r.1)) r.2) as [Hlt|Hge].
    + split; [reflexivity|]. split; [eauto|].
      intros H. apply Forall_cons in H as [H _]. lia.
    + destruct (for_ recipe (check_part model) s) as [[[]|o] s1].
      * destruct IH as [-> IH]. split; [reflexivity|]. constructor; assumption.
      * destruct IH as (-> & Hw & Hn). split; [reflexivity|]. split; [exact Hw|].
        intros H. apply Forall_cons in H as [_ H]. exact (Hn H).
Qed.

Lemma deduct_part_at req s :
  deduct_part req s = deduct_at PartRef req s.
Proof. destruct req. reflexivity. Qed.

(** Either a warning is shown and nothing has changed, or the recipe is in
    stock, every part loses its amount, and the increment of the model's
    count decides the outcome. *)
Lemma assemble_bike_cases model s :
  match assoc model BIKE_TYPE_PARTS with
  | None => assemble_bike model s = (Warned (NoRecipe model), s)
  | Some recipe =>
      (exists w, assemble_bike model s = (Warned w, s) /\
         ~ Forall (fun r => r.2 <= default 0 (INVENTORY_DATA s !! r.1)) recipe) \/
      (Forall (fun r => r.2 <= default 0 (INVENTORY_DATA s !! r.1)) recipe /\
       exists s1,
         same_frame s s1 /\
         PRODUCTION_STATUS s1 = PRODUCTION_STATUS s /\
         (forall k,
            INVENTORY_DATA s1 !! k =
            match assoc k recipe with
            | Some a => (fun v => v - a) <$> INVENTORY_DATA s !! k
            | None => INVENTORY_DATA s !! k
            end) /\
         assemble_bike model s =
         match BIKE_INVENTORY s1 !! model with
         | Some v => refreshed (set_BIKE_INVENTORY (insert model (v + 1)) s1)
         | None => (Raised (KeyError model), s1)
         end)
  end.
Proof.
  unfold assemble_bike.
  destruct (assoc model BIKE_TYPE_PARTS) as [recipe|] eqn:Er;
    [|rewrite handler_run; reflexivity].
  pose proof (check_part_loop_result model recipe s) as Hc.
  destruct (for_ recipe (check_part model) s) as [[[]|o] s0] eqn:Ec.
  - destruct Hc as [-> Hst]. right. split; [exact Hst|].
    destruct (deduct_at_loop (fun _ => PartRef) recipe s) as (s1 & Hrun & Hfr & Hl).
    { eapply recipe_NoDup, Er. }
    { pose proof (recipe_positive _ _ Er) as Hpos.
      rewrite Forall_forall in *. intros r Hr. specialize (Hst r Hr).
      specialize (Hpos r Hr). unfold stocked. simpl.
      destruct (INVENTORY_DATA s !! r.1) as [v|]; simpl in *; [eauto | lia]. }
    exists s1. split; [exact Hfr|]. split.
    { specialize (Hl StationRef). simpl in Hl. apply map_eq. intros k.
      rewrite Hl. reflexivity. }
    split.
    { intros k. specialize (Hl PartRef k). simpl in Hl. exact Hl. }
    rewrite handler_run. unfold bind at 1. rewrite Ec.
    assert (Hrun' : for_ recipe deduct_part s = (inl tt, s1)).
    { rewrite <- Hrun. apply for_ext. intros r s'. apply deduct_part_at. }
    unfold bind at 1. rewrite Hrun'.
    unfold_M. destruct (BIKE_INVENTORY s1 !! model); reflexivity.
  - destruct Hc as (-> & [w ->] & Hn). left. exists w. split; [|exact Hn].
    rewrite handler_run. unfold bind at 1. rewrite Ec. reflexivity.
Qed.

(** *** Order fulfilment, case by case *)

Lemma mark_completed_cases row_index s :
  mark_completed row_index s =
  match pending_orders (ORDERS s) !! row_index with
  | None => (Returned, s)
  | Some (ref, o) =>
      match o !! "bike_model" with
      | None => (Raised (KeyError "bike_model"), s)
      | Some model =>
          let have := default 0 (BIKE_INVENTORY s !! model) in
          if have <? 1
          then (Warned (NoPreAssembledBikes model), s)
          else refreshed
                 (set_ORDERS (alter (insert "status" "Completed") ref)
                    (set_BIKE_INVENTORY (insert model (have - 1)) s))
      end
  end.
Proof.
  unfold mark_completed. rewrite handler_run. unfold_M.
  destruct (pending_orders (ORDERS s) !! row_index) as [[ref o]|]; [|reflexivity].
  destruct (o !! "bike_model") as [model|]; [|reflexivity].
  destruct (BIKE_INVENTORY s !! model) as [v|] eqn:Ev; simpl; [|reflexivity].
  destruct (v <? 1); [reflexivity|]. rewrite Ev. reflexivity.
Qed.

Lemma pending_from_app i l1 l2 :
  pending_from i (l1 ++ l2) =
  pending_from i l1 ++ pending_from (i + length l1) l2.
Proof.
  revert i. induction l1 as [|o l1 IH]; intros i; simpl.
  - rewrite Nat.add_0_r. reflexivity.
  - rewrite IH. replace (S i + length l1)%nat with (i + S (length l1))%nat by lia.
    destruct (is_pending o); reflexivity.
Qed.

Lemma pending_from_lookup i l r ref o :
  pending_from i l !! r = Some (ref, o) ->
  (i <= ref)%nat /\ l !! (ref - i)%nat = Some o /\ is_pending o = true.
Proof.
  revert i r. induction l as [|x l IH]; intros i r; simpl; [discriminate|].
  destruct (is_pending x) eqn:Ex.
  - destruct r as [|r]; simpl.
    + intros [= <- <-]. rewrite Nat.sub_diag. auto.
    + intros H. apply IH in H as (Hle & Hl & Hp).
      split; [lia|]. split; [|exact Hp].
      replace (ref - i)%nat with (S (ref - S i)) by lia. exact Hl.
  - intros H. apply IH in H as (Hle & Hl & Hp).
    split; [lia|]. split; [|exact Hp].
    replace (ref - i)%nat with (S (ref - S i)) by lia. exact Hl.
Qed.

Lemma pending_orders_lookup l r ref o :
  pending_orders l !! r = Some (ref, o) ->
  l !! ref = Some o /\ o !! "status" = Some "Pending".
Proof.
  intros H. apply pending_from_lookup in H as (_ & Hl & Hp).
  rewrite Nat.sub_0_r in Hl. split; [exact Hl|].
  unfold is_pending in Hp. apply bool_decide_eq_true in Hp. exact Hp.
Qed.


Lemma pending_orders_length l :
  length (pending_orders l) = length (filter (fun o => is_pending o = true) l).
Proof.
  unfold pending_orders. generalize 0%nat.
  induction l as [|o l IH]; intros i; simpl; [reflexivity|].
  rewrite filter_cons. destruct (is_pending o) eqn:E.
  - rewrite decide_True by reflexivity. simpl. rewrite IH. reflexivity.
  - rewrite decide_False by discriminate. apply IH.
Qed.

(** *** Stock replenishment *)

Lemma replenish_stock_cases comp amount s :
  replenish_stock comp amount s =
  match INVENTORY_DATA s !! comp with
  | Some v => refreshed (set_INVENTORY_DATA (insert comp (v + amount)) s)
  | None => (Raised (KeyError comp), s)
  end.
Proof.
  unfold replenish_stock. rewrite handler_run. unfold_M. destruct (INVENTORY_DATA s !! comp); reflexivity.
Qed.

(** *** Order submission *)

Lemma submit_order_cases f s :
  submit_order f s = refreshed (set_ORDERS (fun l => l ++ [new_order f]) s).
Proof. unfold submit_order. rewrite handler_run. reflexivity. Qed.

Lemma new_order_status f : new_order f !! "status" = Some "Pending".
Proof. reflexivity. Qed.

Lemma new_order_bike_model f : new_order f !! "bike_model" = Some (bike_model f).
Proof. reflexivity. Qed.

(** *** The closing refresh after a store *)

Lemma name_models_completed (l : list order) ref :
  Forall (fun o : order => is_Some (o !! "bike_model")) l <->
  Forall (fun o : order => is_Some (o !! "bike_model"))
         (alter (insert "status" "Completed") ref l).
Proof.
  split; intros H.
  - apply Forall_alter; [exact H|].
    intros x _ Hx. rewrite lookup_insert_ne by discriminate. exact Hx.
  - apply Forall_alter_inv in H; [exact H|].
    intros x _ Hx. rewrite lookup_insert_ne in Hx by discriminate. exact Hx.
Qed.

Lemma refresh_outcome_iff s s' :
  (orders_name_models s' <-> orders_name_models s) ->
  refresh_outcome s' = refresh_outcome s.
Proof.
  intros H.
  destruct (refresh_outcome_cases s) as [[H1 ->]|[H1 ->]];
    destruct (refresh_outcome_cases s') as [[H2 ->]|[H2 ->]];
    try reflexivity; tauto.
Qed.

Lemma refresh_outcome_completed s s' ref :
  ORDERS s' = alter (insert "status" "Completed") ref (ORDERS s) ->
  refresh_outcome s' = refresh_outcome s.
Proof.
  intros E. apply refresh_outcome_iff. unfold orders_name_models. rewrite E.
  symmetry. apply name_models_completed.
Qed.

Lemma refresh_outcome_submitted s s' f :
  ORDERS s' = ORDERS s ++ [new_order f] ->
  refresh_outcome s' = refresh_outcome s.
Proof.
  intros E. apply refresh_outcome_iff. unfold orders_name_models. rewrite E.
  rewrite Forall_app. split; [tauto|]. intros H. split; [exact H|].
  constructor; [|constructor]. rewrite new_order_bike_model. eauto.
Qed.




(** ** Non-negative quantities *)

Lemma nonneg_ledger s :
  nonneg s <->
  (forall src k v, ledger src s !! k = Some v -> 0 <= v) /\
  (forall k v, BIKE_INVENTORY s !! k = Some v -> 0 <= v).
Proof.
  unfold nonneg. split.
  - intros (H1 & H2 & H3). split; [|exact H3]. intros [] k v; simpl; eauto.
  - intros [H H3]. split; [exact (H PartRef)|]. split; [exact (H StationRef) | exact H3].
Qed.

Lemma insert_nonneg (m : gmap string Z) k v :
  0 <= v -> (forall k' v', m !! k' = Some v' -> 0 <= v') ->
  forall k' v', <[k := v]> m !! k' = Some v' -> 0 <= v'.
Proof.
  intros Hv Hm k' v'. destruct (decide (k = k')) as [->|Hne].
  - rewrite lookup_insert_eq. intros [= <-]. exact Hv.
  - rewrite lookup_insert_ne by assumption. apply Hm.
Qed.

Lemma replenish_stock_nonneg comp amount s :
  replenish_spin_range amount -> nonneg s -> nonneg (replenish_stock comp amount s).2.
Proof.
  intros Hr Hs. rewrite replenish_stock_cases.
  destruct (INVENTORY_DATA s !! comp) as [v|] eqn:E; [|exact Hs].
  destruct Hs as (H1 & H2 & H3). split; [|split; assumption]. simpl.
  apply insert_nonneg; [|exact H1]. unfold replenish_spin_range in Hr.
  specialize (H1 _ _ E). lia.
Qed.

Lemma record_station_completion_nonneg station_key s :
  nonneg s -> nonneg (record_station_completion station_key s).2.
Proof.
  intros Hs.
  destruct (record_station_completion_cases station_key s)
    as [(w & -> & _) | (Hsuf & s1 & Hfr & Hl & ->)]; [exact Hs|].
  assert (Hs1 : nonneg s1).
  { apply nonneg_ledger. apply nonneg_ledger in Hs as [HL HB]. split.
    - intros src k v. rewrite Hl.
      destruct (decide (src = deduct_source s k)) as [->|]; [|apply HL].
      destruct (assoc k _) as [a|] eqn:Ea; [|apply HL].
      apply assoc_elem_of in Ea. rewrite Forall_forall in Hsuf.
      specialize (Hsuf _ Ea). apply sufficient_stocked in Hsuf.
      destruct Hsuf as (v0 & Hv0 & Hle). simpl in *. rewrite Hv0. simpl.
      intros [= <-]. lia.
    - destruct Hfr as (_ & -> & _). exact HB. }
  destruct (PRODUCTION_STATUS s1 !! station_key) as [v|] eqn:E; [|exact Hs1].
  destruct Hs1 as (H1 & H2 & H3). split; [exact H1|]. split; [|exact H3]. simpl.
  apply insert_nonneg; [|exact H2]. specialize (H2 _ _ E). lia.
Qed.

Lemma assemble_bike_nonneg model s :
  nonneg s -> nonneg (assemble_bike model s).2.
Proof.
  intros Hs. pose proof (assemble_bike_cases model s) as Hc.
  destruct (assoc model BIKE_TYPE_PARTS) as [recipe|]; [|rewrite Hc; exact Hs].
  destruct Hc as [(w & -> & _) | (Hst & s1 & Hfr & Hp & Hl & ->)]; [exact Hs|].
  destruct Hs as (H1 & H2 & H3). destruct Hfr as (_ & Hb & _).
  assert (Hs1 : nonneg s1).
  { split; [|split].
    - intros k v. rewrite Hl. destruct (assoc k recipe) as [a|] eqn:Ea; [|apply H1].
      apply assoc_elem_of in Ea. rewrite Forall_forall in Hst.
      specialize (Hst _ Ea). simpl in Hst.
      destruct (INVENTORY_DATA s !! k) as [v0|]; simpl in *; [|discriminate].
      intros [= <-]. lia.
    - rewrite Hp. exact H2.
    - rewrite Hb. exact H3. }
  destruct (BIKE_INVENTORY s1 !! model) as [v|] eqn:E; [|exact Hs1].
  destruct Hs1 as (H1' & H2' & H3'). split; [exact H1'|]. split; [exact H2'|]. simpl.
  apply insert_nonneg; [|exact H3']. specialize (H3' _ _ E). lia.
Qed.

Lemma mark_completed_nonneg row_index s :
  nonneg s -> nonneg (mark_completed row_index s).2.
Proof.
  intros Hs. rewrite mark_completed_cases.
  destruct (pending_orders (ORDERS s) !! row_index) as [[ref o]|]; [|exact Hs].
  destruct (o !! "bike_model") as [model|]; [|exact Hs]. simpl.
  destruct (Z.ltb_spec (default 0 (BIKE_INVENTORY s !! model)) 1); [exact Hs|].
  destruct Hs as (H1 & H2 & H3). split; [exact H1|]. split; [exact H2|]. simpl.
  apply insert_nonneg; [lia | exact H3].
Qed.

Lemma run_nonneg o s : op_ok o -> nonneg s -> nonneg (run o s).2.
Proof.
  destruct o; simpl; intros Hok Hs.
  - apply replenish_stock_nonneg; assumption.
  - apply record_station_completion_nonneg, Hs.
  - apply assemble_bike_nonneg, Hs.
  - rewrite submit_order_cases. exact Hs.
  - apply mark_completed_nonneg, Hs.
Qed.

Lemma initial_state_nonneg : nonneg initial_state.
Proof.
  unfold nonneg, initial_state.
  cbn [INVENTORY_DATA PRODUCTION_STATUS BIKE_INVENTORY].
  repeat split; intros k v H; apply elem_of_list_to_map_2 in H;
    repeat (apply elem_of_cons in H as [[= -> ->]|H]; [lia|]);
    inversion H.
Qed.

(** C2: in every state reachable from the initial configuration by
    replenishments, station completions, assemblies, order submissions and
    fulfilments, every parts quantity, every station completed-count and
    every finished-bike quantity is at least 0. *)
Theorem reachable_nonneg s : reachable s -> nonneg s.
Proof.
  induction 1 as [|s o _ IH Hok].
  - exact initial_state_nonneg.
  - apply run_nonneg; assumption.
Qed.

Lemma reachable_nonneg_witness :
  nonneg (run (Fulfill 0) (run (CompleteStation "FrameWelded")
            (run (AddStock "Wheels" 5) initial_state).2).2).2.
Proof.
  apply reachable_nonneg.
  apply reachable_step; [|exact I].
  apply reachable_step; [|exact I].
  apply reachable_step; [|unfold op_ok, replenish_spin_range; lia].
  apply reachable_initial.
Defined.

(** ** Scenarios *)

(** Without motors the Electric bike is refused and nothing changes. *)
Example scenario_B :
  let s := set_INVENTORY_DATA (insert "Motors" 0) initial_state in
  assemble_bike "Electric" s = (Warned (NotEnoughParts "Electric" "Motors" 1 0), s).
Proof. vm_compute. reflexivity. Qed.

(** The front fork assembly needs one welded frame and one welded fork. *)
Example scenario_C :
  let s1 := (record_station_completion "FrameWelded" initial_state).2 in
  let s2 := (record_station_completion "ForkWelded" s1).2 in
  let r := record_station_completion "FrontForkAssembly" s2 in
  (record_station_completion "FrontForkAssembly" initial_state).1 =
    Warned (NotEnoughComponents "FrontForkAssembly" "FrameWelded" 1 0) /\
  INVENTORY_DATA s2 !! "Tubular Steel" = Some 17 /\
  r.1 = Refreshed /\
  PRODUCTION_STATUS r.2 !! "FrameWelded" = Some 0 /\
  PRODUCTION_STATUS r.2 !! "ForkWelded" = Some 0 /\
  PRODUCTION_STATUS r.2 !! "FrontForkAssembly" = Some 1.
Proof. vm_compute. repeat split; reflexivity. Qed.




(** ** Orders *)



(** C7, as stated, fails: in the initial configuration no order is pending,
    yet fulfilling row 0 reports no error. *)
Lemma fulfill_unresolved_reports_nothing :
  ~ (forall s row_index,
       pending_orders (ORDERS s) !! row_index = None ->
       is_error (mark_completed row_index s).1).
Proof.
  intros H. exact (H initial_state 0%nat eq_refl).
Qed.

(** C7 (amended): a row that does not resolve to a pending order, because it
    is not below the number of pending orders, makes the fulfilment return
    without a message and without changing anything; a row that does
    resolve always designates an order that is Pending, so a Completed
    order cannot be addressed. *)
Theorem fulfill_unresolved_row s row_index :
  (length (filter (fun o => is_pending o = true) (ORDERS s)) <= row_index)%nat ->
  mark_completed row_index s = (Returned, s) /\
  (forall row ref o,
     pending_orders (ORDERS s) !! row = Some (ref, o) ->
     ORDERS s !! ref = Some o /\ o !! "status" = Some "Pending").
Proof.
  intros Hle. split.
  - rewrite mark_completed_cases. rewrite lookup_ge_None_2; [reflexivity|].
    rewrite pending_orders_length. exact Hle.
  - intros row ref o. apply pending_orders_lookup.
Qed.

Lemma fulfill_unresolved_row_witness :
  mark_completed 3 (submit_order tour_form initial_state).2 =
  (Returned, (submit_order tour_form initial_state).2).
Proof.
  apply (fulfill_unresolved_row (submit_order tour_form initial_state).2 3).
  vm_compute. lia.
Defined.




(** ** The built-in administrator *)

Lemma delete_user_cases uname confirmed s :
  delete_user uname confirmed s =
  match USER_DB s !! uname with
  | None => (Warned (UserNotFound uname), s)
  | Some _ =>
      if decide (uname = "admin") then (Warned CannotDelete, s)
      else if confirmed then refreshed (set_USER_DB (delete uname) s)
           else (Returned, s)
  end.
Proof.
  unfold delete_user. rewrite handler_run. unfold_M.
  destruct (USER_DB s !! uname); [|reflexivity].
  destruct (decide (uname = "admin")); [reflexivity|].
  destruct confirmed; reflexivity.
Qed.

Lemma delete_user_keeps_admin uname confirmed s :
  USER_DB (delete_user uname confirmed s).2 !! "admin" = USER_DB s !! "admin".
Proof.
  rewrite delete_user_cases. destruct (USER_DB s !! uname); [|reflexivity].
  destruct (decide (uname = "admin")); [reflexivity|].
  destruct confirmed; [|reflexivity]. simpl.
  apply lookup_delete_ne. assumption.
Qed.

(** Any other user is deleted once the dialog is confirmed. *)
Example delete_worker1 :
  (delete_user "worker1" true initial_state).1 = Refreshed /\
  USER_DB (delete_user "worker1" true initial_state).2 !! "worker1" = None /\
  (delete_user "worker1" false initial_state).2 = initial_state.
Proof. vm_compute. repeat split; reflexivity. Qed.

(** C10: whatever the user database holds, deleting the user admin is
    refused with a warning and changes nothing; hence no sequence of
    deletions ever removes the admin account. *)
Theorem delete_admin_refused s confirmed :
  (exists w, delete_user "admin" confirmed s = (Warned w, s)) /\
  (forall clicks,
     USER_DB (delete_users clicks s) !! "admin" = USER_DB s !! "admin").
Proof.
  split.
  - rewrite delete_user_cases. destruct (USER_DB s !! "admin"); eauto.
  - intros clicks. revert s. induction clicks as [|[u c] clicks IH]; intros s; simpl.
    + reflexivity.
    + rewrite IH. apply delete_user_keeps_admin.
Qed.

(** ** All or nothing *)

(** A station without requirements only increments its own count. *)
Lemma record_station_completion_unknown station_key s :
  assoc station_key STATION_REQUIREMENTS = None ->
  record_station_completion station_key s =
  match PRODUCTION_STATUS s !! station_key with
  | Some v => refreshed (set_PRODUCTION_STATUS (insert station_key (v + 1)) s)
  | None => (Raised (KeyError station_key), s)
  end.
Proof.
  intros E. unfold record_station_completion. rewrite E, handler_run. simpl.
  unfold_M.
  destruct (PRODUCTION_STATUS s !! station_key); reflexivity.
Qed.

Lemma deducted_is_Some {P : Prop} (d : {P} + {~ P}) (oa x : option Z) :
  is_Some (if d
           then match oa with
                | Some a => (fun v => v - a) <$> x
                | None => x
                end
           else x) <->
  is_Some x.
Proof. destruct d, oa; rewrite ?fmap_is_Some; done. Qed.

(** A warning always leaves the globals as they were. *)
Lemma warned_unchanged o s w :
  (run o s).1 = Warned w -> (run o s).2 = s.
Proof.
  assert (Hr : forall s', (refreshed s').1 = Warned w -> (refreshed s').2 = s).
  { intros s' H. exfalso. exact (refresh_outcome_not_warned _ _ H). }
  destruct o; simpl.
  - rewrite replenish_stock_cases.
    destruct (INVENTORY_DATA s !! comp); [apply Hr | discriminate].
  - destruct (record_station_completion_cases station_key s)
      as [(w' & -> & _) | (_ & s1 & _ & _ & ->)]; [reflexivity|].
    destruct (PRODUCTION_STATUS s1 !! station_key); [apply Hr | discriminate].
  - pose proof (assemble_bike_cases model s) as Hc.
    destruct (assoc model BIKE_TYPE_PARTS); [|rewrite Hc; reflexivity].
    destruct Hc as [(w' & -> & _) | (_ & s1 & _ & _ & _ & ->)]; [reflexivity|].
    destruct (BIKE_INVENTORY s1 !! model); [apply Hr | discriminate].
  - rewrite submit_order_cases. apply Hr.
  - rewrite mark_completed_cases.
    destruct (pending_orders (ORDERS s) !! row_index) as [[ref o]|]; [|reflexivity].
    destruct (o !! "bike_model"); [|reflexivity]. cbv zeta.
    destruct (_ <? 1); [reflexivity | apply Hr].
Qed.

(** With every counter of the static tables present and every order naming
    its bike model, every failure, an exception included, leaves the
    globals as they were. *)
Lemma failure_unchanged o s :
  well_keyed s -> orders_name_models s ->
  is_error (run o s).1 -> (run o s).2 = s.
Proof.
  intros [Hst Hbk] Hnm.
  assert (Hr : forall s', ORDERS s' = ORDERS s ->
            is_error (refreshed s').1 -> (refreshed s').2 = s).
  { intros s' Ho H. exfalso. unfold refreshed in H. cbn [fst] in H.
    rewrite (refresh_outcome_orders s s' Ho) in H.
    rewrite (refresh_outcome_named s Hnm) in H. exact H. }
  destruct o; simpl.
  - rewrite replenish_stock_cases.
    destruct (INVENTORY_DATA s !! comp); [apply Hr; reflexivity | reflexivity].
  - destruct (assoc station_key STATION_REQUIREMENTS) as [reqs|] eqn:E.
    + destruct (record_station_completion_cases station_key s)
        as [(w' & -> & _) | (_ & s1 & (_ & _ & Ho) & Hl & ->)]; [reflexivity|].
      destruct (Hst _ _ E) as [v Hv].
      assert (is_Some (PRODUCTION_STATUS s1 !! station_key)) as [v1 ->].
      { change (is_Some (ledger StationRef s1 !! station_key)).
        rewrite Hl. apply deducted_is_Some. simpl. eauto. }
      apply Hr. exact Ho.
    + rewrite record_station_completion_unknown by assumption.
      destruct (PRODUCTION_STATUS s !! station_key);
        [apply Hr; reflexivity | reflexivity].
  - pose proof (assemble_bike_cases model s) as Hc.
    destruct (assoc model BIKE_TYPE_PARTS) as [recipe|] eqn:E;
      [|rewrite Hc; reflexivity].
    destruct Hc as [(w' & -> & _) | (_ & s1 & (_ & Hb & Ho) & _ & _ & ->)];
      [reflexivity|].
    destruct (Hbk _ _ E) as [v Hv]. rewrite Hb, Hv. apply Hr. exact Ho.
  - rewrite submit_order_cases. intros H. exfalso.
    unfold refreshed in H. cbn [fst] in H.
    rewrite (refresh_outcome_submitted s _ f) in H by reflexivity.
    rewrite (refresh_outcome_named s Hnm) in H. exact H.
  - rewrite mark_completed_cases.
    destruct (pending_orders (ORDERS s) !! row_index) as [[ref o]|]; [|reflexivity].
    destruct (o !! "bike_model"); [|reflexivity]. cbv zeta.
    destruct (_ <? 1); [reflexivity|]. intros H. exfalso.
    unfold refreshed in H. cbn [fst] in H.
    rewrite (refresh_outcome_completed s _ ref) in H by reflexivity.
    rewrite (refresh_outcome_named s Hnm) in H. exact H.
Qed.

(** The keys of the counters never change. *)
Lemma run_keys o s k :
  (is_Some (PRODUCTION_STATUS (run o s).2 !! k) <->
   is_Some (PRODUCTION_STATUS s !! k)) /\
  (is_Some (BIKE_INVENTORY (run o s).2 !! k) <->
   is_Some (BIKE_INVENTORY s !! k)).
Proof.
  destruct o; simpl.
  - rewrite replenish_stock_cases. destruct (INVENTORY_DATA s !! comp); done.
  - destruct (record_station_completion_cases station_key s)
      as [(w' & -> & _) | (_ & s1 & (_ & Hb & _) & Hl & ->)]; [done|].
    assert (H1 : is_Some (PRODUCTION_STATUS s1 !! k) <->
                 is_Some (PRODUCTION_STATUS s !! k)).
    { change (is_Some (ledger StationRef s1 !! k) <->
              is_Some (ledger StationRef s !! k)).
      rewrite Hl. apply deducted_is_Some. }
    destruct (PRODUCTION_STATUS s1 !! station_key) as [v|] eqn:Ev; simpl;
      [|rewrite Hb; done].
    rewrite Hb. split; [|done]. rewrite <- H1.
    destruct (decide (station_key = k)) as [->|Hne].
    + rewrite lookup_insert_eq, Ev. done.
    + rewrite lookup_insert_ne by assumption. done.
  - pose proof (assemble_bike_cases model s) as Hc.
    destruct (assoc model BIKE_TYPE_PARTS) as [recipe|];
      [|rewrite Hc; done].
    destruct Hc as [(w' & -> & _) | (_ & s1 & (_ & Hb & _) & Hp & _ & ->)]; [done|].
    destruct (BIKE_INVENTORY s1 !! model) as [v|] eqn:Ev; simpl;
      rewrite Hp; [|rewrite Hb; done].
    split; [done|]. rewrite <- Hb.
    destruct (decide (model = k)) as [->|Hne].
    + rewrite lookup_insert_eq, Ev. done.
    + rewrite lookup_insert_ne by assumption. done.
  - rewrite submit_order_cases. done.
  - rewrite mark_completed_cases.
    destruct (pending_orders (ORDERS s) !! row_index) as [[ref o]|]; [|done].
    destruct (o !! "bike_model") as [model|]; [|done]. simpl.
    destruct (Z.ltb_spec (default 0 (BIKE_INVENTORY s !! model)) 1); [done|].
    simpl. split; [done|].
    destruct (decide (model = k)) as [->|Hne].
    + rewrite lookup_insert_eq.
      destruct (BIKE_INVENTORY s !! k); simpl in *; [done | lia].
    + rewrite lookup_insert_ne by assumption. done.
Qed.

Lemma reachable_keys s k :
  reachable s ->
  (is_Some (PRODUCTION_STATUS s !! k) <->
   is_Some (PRODUCTION_STATUS initial_state !! k)) /\
  (is_Some (BIKE_INVENTORY s !! k) <->
   is_Some (BIKE_INVENTORY initial_state !! k)).
Proof.
  induction 1 as [|s o _ IH _]; [done|].
  destruct (run_keys o s k) as [H1 H2]. rewrite H1, H2. exact IH.
Qed.

Lemma initial_production_keys k :
  is_Some (PRODUCTION_STATUS initial_state !! k) <->
  is_Some (assoc k STATION_REQUIREMENTS).
Proof.
  split.
  - intros [v H]. unfold initial_state in H. cbn [PRODUCTION_STATUS] in H.
    apply elem_of_list_to_map_2 in H.
    repeat (apply elem_of_cons in H as [[= -> ->]|H]; [vm_compute; eauto|]).
    inversion H.
  - intros [reqs H]. apply assoc_elem_of in H. unfold STATION_REQUIREMENTS in H.
    repeat (apply elem_of_cons in H as [[= -> ->]|H]; [vm_compute; eauto|]).
    inversion H.
Qed.

Lemma initial_bike_keys k :
  is_Some (assoc k BIKE_TYPE_PARTS) ->
  is_Some (BIKE_INVENTORY initial_state !! k).
Proof.
  intros [reqs H]. apply assoc_elem_of in H. unfold BIKE_TYPE_PARTS in H.
  repeat (apply elem_of_cons in H as [[= -> ->]|H]; [vm_compute; eauto|]).
  inversion H.
Qed.

Lemma reachable_well_keyed s : reachable s -> well_keyed s.
Proof.
  intros Hr. split; intros k x E.
  - apply (reachable_keys s k Hr). apply initial_production_keys. eauto.
  - apply (reachable_keys s k Hr). apply initial_bike_keys. eauto.
Qed.

(** C1: the station completion and the assembly are not all-or-nothing in
    every state.  After loading a file without production section, the
    completion of FrameWelded takes 2 Tubular Steel and then fails on the
    missing counter; after loading a file with an empty finished-bike
    section, the assembly of a Sport bike takes its parts and then fails
    likewise.  Both calls end in an error with the ledgers changed. *)
Theorem failure_after_deduction :
  let s := _load_data snapshot_without_production initial_state in
  let r := record_station_completion "FrameWelded" s in
  let s_b := _load_data snapshot_without_bikes initial_state in
  let r_b := assemble_bike "Sport" s_b in
  (r.1 = Raised (KeyError "FrameWelded") /\ is_error r.1 /\
   INVENTORY_DATA s !! "Tubular Steel" = Some 20 /\
   INVENTORY_DATA r.2 !! "Tubular Steel" = Some 18 /\
   r.2 <> s) /\
  (r_b.1 = Raised (KeyError "Sport") /\ is_error r_b.1 /\
   INVENTORY_DATA s_b !! "Wheels" = Some 20 /\
   INVENTORY_DATA r_b.2 !! "Wheels" = Some 18 /\
   r_b.2 <> s_b).
Proof.
  cbv zeta. split.
  - split; [vm_compute; reflexivity|]. split; [vm_compute; exact I|].
    split; [vm_compute; reflexivity|]. split; [vm_compute; reflexivity|].
    intros E. apply (f_equal (fun x => INVENTORY_DATA x !! "Tubular Steel")) in E.
    vm_compute in E. discriminate.
  - split; [vm_compute; reflexivity|]. split; [vm_compute; exact I|].
    split; [vm_compute; reflexivity|]. split; [vm_compute; reflexivity|].
    intros E. apply (f_equal (fun x => INVENTORY_DATA x !! "Wheels")) in E.
    vm_compute in E. discriminate.
Qed.

(** ** Stations the requirement table does not know *)




(** ** The order book as a history *)







(** What one operation does to the order book. *)
Lemma run_orders o s :
  (ORDERS (run o s).2 = ORDERS s) \/
  (exists f, o = SubmitOrder f /\ ORDERS (run o s).2 = ORDERS s ++ [new_order f]) \/
  (exists row_index ref x,
     o = Fulfill row_index /\ completes_order row_index s /\
     (run o s).1 = refresh_outcome s /\
     pending_orders (ORDERS s) !! row_index = Some (ref, x) /\
     ORDERS (run o s).2 = alter (insert "status" "Completed") ref (ORDERS s)).
Proof.
  destruct o; simpl.
  - left. rewrite replenish_stock_cases. destruct (INVENTORY_DATA s !! comp); reflexivity.
  - left. destruct (record_station_completion_cases station_key s)
      as [(w' & -> & _) | (_ & s1 & (_ & _ & Ho) & _ & ->)]; [reflexivity|].
    destruct (PRODUCTION_STATUS s1 !! station_key); exact Ho.
  - left. pose proof (assemble_bike_cases model s) as Hc.
    destruct (assoc model BIKE_TYPE_PARTS); [|rewrite Hc; reflexivity].
    destruct Hc as [(w' & -> & _) | (_ & s1 & (_ & _ & Ho) & _ & _ & ->)];
      [reflexivity|].
    destruct (BIKE_INVENTORY s1 !! model); exact Ho.
  - right. left. exists f. rewrite submit_order_cases. split; reflexivity.
  - rewrite mark_completed_cases.
    destruct (pending_orders (ORDERS s) !! row_index) as [[ref x]|] eqn:Ep;
      [|left; reflexivity].
    destruct (x !! "bike_model") as [model|] eqn:Em; [|left; reflexivity]. cbv zeta.
    destruct (Z.ltb_spec (default 0 (BIKE_INVENTORY s !! model)) 1) as [Hlt|Hge];
      [left; reflexivity|].
    right. right. exists row_index, ref, x.
    split; [reflexivity|]. split; [exists ref, x, model; auto|].
    split; [eapply refresh_outcome_completed; reflexivity|].
    split; [exact Ep | reflexivity].
Qed.





(** ** Resolution order of station requirements *)

(** C4, as stated, fails: after loading a file whose production section
    lacks ForkWelded, the id ForkWelded required by FrontForkAssembly is in
    neither ledger, but the call stops at the requirement before it and
    reports FrameWelded as insufficient. *)
Lemma unknown_requirement_not_reported :
  ~ (forall station_key reqs resource_id amount s,
       assoc station_key STATION_REQUIREMENTS = Some reqs ->
       (resource_id, amount) ∈ reqs ->
       INVENTORY_DATA s !! resource_id = None ->
       PRODUCTION_STATUS s !! resource_id = None ->
       (record_station_completion station_key s).1 =
       Warned (UnknownRequirement resource_id)).
Proof.
  intros H.
  specialize (H "FrontForkAssembly" [("FrameWelded", 1); ("ForkWelded", 1)]
                "ForkWelded" 1 (_load_data snapshot_without_fork initial_state)
                eq_refl).
  assert (E : (record_station_completion "FrontForkAssembly"
                 (_load_data snapshot_without_fork initial_state)).1 =
              Warned (NotEnoughComponents "FrontForkAssembly" "FrameWelded" 1 0))
    by (vm_compute; reflexivity).
  rewrite E in H. discriminate H.
  - right. left.
  - vm_compute. reflexivity.
  - vm_compute. reflexivity.
Qed.

(** C4 (amended): for a requirement of a station whose preceding
    requirements all resolve and are available, the id is looked up in the
    parts ledger first and in the station counts only when the parts ledger
    does not have it; when neither has it the call fails with the
    unknown-requirement warning; the availability is that of the ledger
    found, and when every requirement passes the amount is taken from that
    same ledger while the other ledger keeps what it had for the id. *)
Theorem station_resolution_order station_key s pre resource_id amount post :
  default [] (assoc station_key STATION_REQUIREMENTS) =
    pre ++ (resource_id, amount) :: post ->
  Forall (sufficient s) pre ->
  let r := record_station_completion station_key s in
  match INVENTORY_DATA s !! resource_id with
  | Some v =>
      (v < amount ->
         r = (Warned (NotEnoughInventory station_key resource_id amount v), s)) /\
      (amount <= v -> Forall (sufficient s) post ->
         INVENTORY_DATA r.2 !! resource_id = Some (v - amount) /\
         PRODUCTION_STATUS r.2 !! resource_id = PRODUCTION_STATUS s !! resource_id)
  | None =>
      match PRODUCTION_STATUS s !! resource_id with
      | Some v =>
          (v < amount ->
             r = (Warned (NotEnoughComponents station_key resource_id amount v), s)) /\
          (amount <= v -> Forall (sufficient s) post ->
             PRODUCTION_STATUS r.2 !! resource_id = Some (v - amount) /\
             INVENTORY_DATA r.2 !! resource_id = None)
      | None => r = (Warned (UnknownRequirement resource_id), s)
      end
  end.
Proof.
  intros Ereqs Hpre r.
  pose proof (station_requirements_NoDup station_key) as Hnd.
  pose proof (station_not_own_requirement station_key) as Hown.
  set (reqs := default [] (assoc station_key STATION_REQUIREMENTS)) in *.
  assert (Hin : (resource_id, amount) ∈ reqs).
  { rewrite Ereqs. apply elem_of_app. right. left. }
  assert (Hne : station_key <> resource_id).
  { intros ->. apply Hown. apply list_elem_of_fmap. exists (resource_id, amount). auto. }
  (* the check loop, up to and including this requirement *)
  assert (Hcheck :
    match resolve s resource_id with
    | None => r = (Warned (UnknownRequirement resource_id), s)
    | Some src =>
        available s src resource_id < amount ->
        r = (Warned (insufficient src station_key resource_id amount
                       (available s src resource_id)), s)
    end).
  { assert (Hloop : for_ reqs (check_requirement station_key) s =
      (check_requirement station_key (resource_id, amount) ;;;
       for_ post (check_requirement station_key)) s).
    { rewrite Ereqs, for_app. unfold bind at 1.
      rewrite (check_loop_sufficient _ _ _ Hpre). reflexivity. }
    destruct (resolve s resource_id) as [src|] eqn:Eres; [intros Hlt|];
      unfold r, record_station_completion; fold reqs;
      rewrite handler_run; unfold bind at 1; rewrite Hloop; unfold bind at 1;
      rewrite check_requirement_cases; simpl; rewrite Eres; [|reflexivity].
    destruct (Z.ltb_spec (available s src resource_id) amount); [|lia].
    reflexivity. }
  (* the state after a call in which every requirement passes *)
  assert (Hded : forall src, resolve s resource_id = Some src ->
    amount <= available s src resource_id -> Forall (sufficient s) post ->
    ledger src r.2 !! resource_id = Some (available s src resource_id - amount) /\
    ledger (other src) r.2 !! resource_id = ledger (other src) s !! resource_id).
  { intros src Hres Hle Hpost.
    assert (Hall : Forall (sufficient s) reqs).
    { rewrite Ereqs. apply Forall_app. split; [exact Hpre|].
      constructor; [|exact Hpost]. unfold sufficient. simpl. rewrite Hres. exact Hle. }
    destruct (record_station_completion_cases station_key s)
      as [(w & _ & Hn) | (_ & s1 & _ & Hl & Hrun)]; [contradiction|].
    fold reqs in Hl.
    assert (Hs1 : ledger src s1 !! resource_id =
                    Some (available s src resource_id - amount) /\
                  ledger (other src) s1 !! resource_id =
                    ledger (other src) s !! resource_id).
    { rewrite !Hl. unfold deduct_source. rewrite Hres. simpl.
      rewrite (elem_of_assoc _ _ _ Hnd Hin).
      rewrite decide_True by reflexivity.
      rewrite decide_False by (destruct src; discriminate).
      split; [|reflexivity].
      destruct (resolve_ledger _ _ _ Hres) as [v Hv].
      unfold available. rewrite Hv. reflexivity. }
    unfold r. rewrite Hrun.
    destruct (PRODUCTION_STATUS s1 !! station_key) as [c|]; [|exact Hs1].
    destruct src; simpl in *; rewrite lookup_insert_ne by assumption; exact Hs1. }
  unfold resolve, available in Hcheck, Hded.
  destruct (INVENTORY_DATA s !! resource_id) as [v|] eqn:Ei.
  - specialize (Hded PartRef eq_refl).
    cbn [ledger insufficient other] in Hcheck, Hded.
    rewrite Ei in Hcheck, Hded. split; [exact Hcheck | exact Hded].
  - destruct (PRODUCTION_STATUS s !! resource_id) as [v|] eqn:Ep; [|exact Hcheck].
    specialize (Hded StationRef eq_refl).
    cbn [ledger insufficient other] in Hcheck, Hded.
    rewrite Ep in Hcheck, Hded. rewrite Ei in Hded.
    split; [exact Hcheck | exact Hded].
Qed.

Lemma station_resolution_order_witness :
  let s := (record_station_completion "ForkWelded"
              (record_station_completion "FrameWelded" initial_state).2).2 in
  let r := record_station_completion "FrontForkAssembly" s in
  PRODUCTION_STATUS r.2 !! "ForkWelded" = Some 0 /\
  INVENTORY_DATA r.2 !! "ForkWelded" = None.
Proof.
  intros s r.
  pose proof (station_resolution_order "FrontForkAssembly" s
                [("FrameWelded", 1)] "ForkWelded" 1 [] eq_refl) as H.
  assert (Hpre : Forall (sufficient s) [("FrameWelded", 1)]).
  { constructor; [|constructor]. vm_compute. discriminate. }
  specialize (H Hpre). cbv zeta in H.
  change (INVENTORY_DATA s !! "ForkWelded") with (@None Z) in H.
  change (PRODUCTION_STATUS s !! "ForkWelded") with (Some 1) in H.
  destruct H as [_ H]. apply H; [lia | constructor].
Defined.

(** * Further properties of the handlers *)

(** ** What an operation leaves alone *)

(** Each handler writes only to its own dictionaries: a station completion
    never touches the finished bikes, the orders or the users; an assembly
    never touches the station counts, the orders or the users; a fulfilment
    never touches the parts, the station counts or the users; a
    replenishment changes the parts only and a submission the orders
    only. *)
Theorem handlers_write_own_ledgers s :
  (forall station_key,
     let s' := (record_station_completion station_key s).2 in
     USER_DB s' = USER_DB s /\ BIKE_INVENTORY s' = BIKE_INVENTORY s /\
     ORDERS s' = ORDERS s) /\
  (forall model,
     let s' := (assemble_bike model s).2 in
     USER_DB s' = USER_DB s /\ ORDERS s' = ORDERS s /\
     PRODUCTION_STATUS s' = PRODUCTION_STATUS s) /\
  (forall row_index,
     let s' := (mark_completed row_index s).2 in
     USER_DB s' = USER_DB s /\ INVENTORY_DATA s' = INVENTORY_DATA s /\
     PRODUCTION_STATUS s' = PRODUCTION_STATUS s) /\
  (forall comp amount,
     let s' := (replenish_stock comp amount s).2 in
     USER_DB s' = USER_DB s /\ BIKE_INVENTORY s' = BIKE_INVENTORY s /\
     ORDERS s' = ORDERS s /\ PRODUCTION_STATUS s' = PRODUCTION_STATUS s) /\
  (forall f,
     let s' := (submit_order f s).2 in
     USER_DB s' = USER_DB s /\ INVENTORY_DATA s' = INVENTORY_DATA s /\
     BIKE_INVENTORY s' = BIKE_INVENTORY s /\
     PRODUCTION_STATUS s' = PRODUCTION_STATUS s).
Proof.
  split; [|split; [|split; [|split]]].
  - intros station_key s'. unfold s'.
    destruct (record_station_completion_cases station_key s)
      as [(w & -> & _) | (_ & s1 & (Hu & Hb & Ho) & _ & ->)]; [done|].
    destruct (PRODUCTION_STATUS s1 !! station_key); done.
  - intros model s'. unfold s'. pose proof (assemble_bike_cases model s) as Hc.
    destruct (assoc model BIKE_TYPE_PARTS); [|rewrite Hc; done].
    destruct Hc as [(w & -> & _) | (_ & s1 & (Hu & _ & Ho) & Hp & _ & ->)]; [done|].
    destruct (BIKE_INVENTORY s1 !! model); done.
  - intros row_index s'. unfold s'. rewrite mark_completed_cases.
    destruct (pending_orders (ORDERS s) !! row_index) as [[ref o]|]; [|done].
    destruct (o !! "bike_model"); [|done]. simpl.
    destruct (_ <? 1); done.
  - intros comp amount s'. unfold s'. rewrite replenish_stock_cases.
    destruct (INVENTORY_DATA s !! comp); done.
  - intros f s'. unfold s'. rewrite submit_order_cases. done.
Qed.

(** ** Key sets *)

Lemma run_inventory_keys o s k :
  is_Some (INVENTORY_DATA (run o s).2 !! k) <-> is_Some (INVENTORY_DATA s !! k).
Proof.
  destruct o; simpl.
  - rewrite replenish_stock_cases.
    destruct (INVENTORY_DATA s !! comp) as [v|] eqn:Ev; [|done]. simpl.
    destruct (decide (comp = k)) as [->|Hne].
    + rewrite lookup_insert_eq, Ev. done.
    + rewrite lookup_insert_ne by assumption. done.
  - destruct (record_station_completion_cases station_key s)
      as [(w' & -> & _) | (_ & s1 & _ & Hl & ->)]; [done|].
    assert (H1 : is_Some (INVENTORY_DATA s1 !! k) <-> is_Some (INVENTORY_DATA s !! k)).
    { change (is_Some (ledger PartRef s1 !! k) <-> is_Some (ledger PartRef s !! k)).
      rewrite Hl. apply deducted_is_Some. }
    destruct (PRODUCTION_STATUS s1 !! station_key); exact H1.
  - pose proof (assemble_bike_cases model s) as Hc.
    destruct (assoc model BIKE_TYPE_PARTS) as [recipe|]; [|rewrite Hc; done].
    destruct Hc as [(w' & -> & _) | (_ & s1 & _ & _ & Hl & ->)]; [done|].
    assert (H1 : is_Some (INVENTORY_DATA s1 !! k) <-> is_Some (INVENTORY_DATA s !! k)).
    { rewrite Hl. destruct (assoc k recipe); [|done]. apply fmap_is_Some. }
    destruct (BIKE_INVENTORY s1 !! model); exact H1.
  - rewrite submit_order_cases. done.
  - rewrite mark_completed_cases.
    destruct (pending_orders (ORDERS s) !! row_index) as [[ref o]|]; [|done].
    destruct (o !! "bike_model"); [|done]. simpl.
    destruct (_ <? 1); done.
Qed.

(** No operation ever adds or removes a part, a station or a bike model:
    the key sets of the three ledgers are the same before and after. *)
Theorem operations_keep_keys o s k :
  (is_Some (INVENTORY_DATA (run o s).2 !! k) <-> is_Some (INVENTORY_DATA s !! k)) /\
  (is_Some (PRODUCTION_STATUS (run o s).2 !! k) <->
   is_Some (PRODUCTION_STATUS s !! k)) /\
  (is_Some (BIKE_INVENTORY (run o s).2 !! k) <-> is_Some (BIKE_INVENTORY s !! k)).
Proof.
  split; [apply run_inventory_keys | apply run_keys].
Qed.

Lemma reachable_inventory_keys s k :
  reachable s ->
  (is_Some (INVENTORY_DATA s !! k) <-> is_Some (INVENTORY_DATA initial_state !! k)).
Proof.
  induction 1 as [|s o _ IH _]; [done|].
  rewrite run_inventory_keys. exact IH.
Qed.

Lemma new_order_well_formed f :
  (new_order f !! "status" = Some "Pending" \/
   new_order f !! "status" = Some "Completed") /\
  is_Some (new_order f !! "bike_model").
Proof. split; [left; reflexivity | rewrite new_order_bike_model; eauto]. Qed.

Lemma run_orders_well_formed o s :
  orders_well_formed s -> orders_well_formed (run o s).2.
Proof.
  unfold orders_well_formed. intros Hs.
  destruct (run_orders o s)
    as [-> | [(f & _ & ->) | (row & ref & x & _ & _ & _ & _ & ->)]].
  - exact Hs.
  - apply Forall_app. split; [exact Hs|].
    constructor; [apply new_order_well_formed | constructor].
  - apply Forall_alter; [exact Hs|].
    intros y _ [_ Hm]. split.
    + right. apply lookup_insert_eq.
    + rewrite lookup_insert_ne by discriminate. exact Hm.
Qed.

Lemma reachable_orders_well_formed s : reachable s -> orders_well_formed s.
Proof.
  induction 1 as [|s o _ IH _].
  - constructor.
  - apply run_orders_well_formed, IH.
Qed.

Lemma orders_well_formed_name_models s :
  orders_well_formed s -> orders_name_models s.
Proof.
  unfold orders_well_formed, orders_name_models. intros H.
  eapply Forall_impl; [exact H|]. intros o [_ Ho]. exact Ho.
Qed.

Lemma reachable_name_models s : reachable s -> orders_name_models s.
Proof.
  intros Hr. apply orders_well_formed_name_models, reachable_orders_well_formed, Hr.
Qed.

(** ** All or nothing, where it holds *)

(** In every state reachable from the initial configuration, an operation
    that ends in a warning or in an exception leaves every dictionary as
    it was. *)
Theorem reachable_failure_unchanged s o :
  reachable s -> is_error (run o s).1 -> (run o s).2 = s.
Proof.
  intros Hr. apply failure_unchanged.
  - apply reachable_well_keyed, Hr.
  - apply reachable_name_models, Hr.
Qed.

Lemma reachable_failure_unchanged_witness :
  (run (CompleteStation "Painting") (run (AddStock "Seats" 2) initial_state).2).2 =
  (run (AddStock "Seats" 2) initial_state).2.
Proof.
  apply reachable_failure_unchanged.
  - apply reachable_step; [apply reachable_initial|].
    unfold op_ok, replenish_spin_range. lia.
  - vm_compute. exact I.
Defined.

(** Non-negative quantities stay non-negative from any state, for instance
    from a loaded file, over every sequence of operations. *)
Theorem nonneg_preserved ops s :
  Forall op_ok ops -> nonneg s -> nonneg (run_all ops s).
Proof.
  intros Hok. revert s. induction Hok as [|o ops Ho _ IH]; intros s Hs; simpl.
  - exact Hs.
  - apply IH. apply run_nonneg; assumption.
Qed.

Lemma nonneg_preserved_witness :
  nonneg (run_all [Assemble "Tour"; CompleteStation "ForkWelded"]
            (_load_data snapshot_without_bikes initial_state)).
Proof.
  apply nonneg_preserved.
  - repeat constructor.
  - unfold nonneg, _load_data, snapshot_without_bikes, initial_state.
    cbn [INVENTORY_DATA PRODUCTION_STATUS BIKE_INVENTORY inventory production
         bike_inventory default from_option id].
    repeat split; intros k v H;
      try (apply elem_of_list_to_map_2 in H;
           repeat (apply elem_of_cons in H as [[= -> ->]|H]; [lia|]);
           inversion H).
    rewrite lookup_empty in H. discriminate.
Defined.

(** ** Consumption of parts *)

Lemma station_requirements_positive k :
  Forall (fun r => 0 < r.2) (default [] (assoc k STATION_REQUIREMENTS)).
Proof.
  destruct (assoc k STATION_REQUIREMENTS) as [reqs|] eqn:E; simpl; [|constructor].
  apply (assoc_Forall (fun e => Forall (fun r => 0 < r.2) e.2) _ _ _) in E; [exact E|].
  apply (bool_decide_unpack _). vm_compute. exact I.
Qed.

(** Only a replenishment can raise a parts quantity: after any other
    operation every part holds at most what it held before. *)
Theorem parts_only_consumed o s k v' :
  (forall comp amount, o <> AddStock comp amount) ->
  INVENTORY_DATA (run o s).2 !! k = Some v' ->
  exists v, INVENTORY_DATA s !! k = Some v /\ v' <= v.
Proof.
  intros Hno. destruct o; simpl.
  - exfalso. exact (Hno comp amount eq_refl).
  - destruct (record_station_completion_cases station_key s)
      as [(w' & -> & _) | (_ & s1 & _ & Hl & ->)].
    { intros H. exists v'. split; [exact H | lia]. }
    intros H.
    assert (H1 : INVENTORY_DATA s1 !! k = Some v').
    { destruct (PRODUCTION_STATUS s1 !! station_key); exact H. }
    change (ledger PartRef s1 !! k = Some v') in H1. rewrite Hl in H1.
    cbn [ledger] in H1.
    destruct (decide (PartRef = deduct_source s k)); [|exists v'; split; [done|lia]].
    destruct (assoc k _) as [a|] eqn:Ea; [|exists v'; split; [done|lia]].
    pose proof (station_requirements_positive station_key) as Hpos.
    rewrite Forall_forall in Hpos. specialize (Hpos _ (assoc_elem_of _ _ _ Ea)).
    simpl in Hpos.
    destruct (INVENTORY_DATA s !! k) as [v|]; simpl in H1; [|discriminate].
    injection H1 as <-. exists v. split; [reflexivity | lia].
  - pose proof (assemble_bike_cases model s) as Hc.
    destruct (assoc model BIKE_TYPE_PARTS) as [recipe|] eqn:Er.
    2:{ rewrite Hc. intros H. exists v'. split; [exact H | lia]. }
    destruct Hc as [(w' & -> & _) | (_ & s1 & _ & _ & Hl & ->)].
    { intros H. exists v'. split; [exact H | lia]. }
    intros H.
    assert (H1 : INVENTORY_DATA s1 !! k = Some v').
    { destruct (BIKE_INVENTORY s1 !! model); exact H. }
    rewrite Hl in H1.
    destruct (assoc k recipe) as [a|] eqn:Ea; [|exists v'; split; [done|lia]].
    pose proof (recipe_positive _ _ Er) as Hpos.
    rewrite Forall_forall in Hpos. specialize (Hpos _ (assoc_elem_of _ _ _ Ea)).
    simpl in Hpos.
    destruct (INVENTORY_DATA s !! k) as [v|]; simpl in H1; [|discriminate].
    injection H1 as <-. exists v. split; [reflexivity | lia].
  - rewrite submit_order_cases. intros H. exists v'. split; [exact H | lia].
  - rewrite mark_completed_cases.
    destruct (pending_orders (ORDERS s) !! row_index) as [[ref x]|];
      [|intros H; exists v'; split; [exact H | lia]].
    destruct (x !! "bike_model"); [|intros H; exists v'; split; [exact H | lia]].
    simpl. destruct (_ <? 1); intros H; exists v'; (split; [exact H | lia]).
Qed.

Lemma parts_only_consumed_witness :
  exists v, INVENTORY_DATA initial_state !! "Gears" = Some v /\ 13 <= v.
Proof.
  apply (parts_only_consumed (Assemble "Tour") initial_state "Gears" 13).
  - intros comp amount. discriminate.
  - vm_compute. reflexivity.
Defined.

(** ** When an assembly succeeds *)

Lemma check_part_loop_sufficient model recipe s :
  Forall (fun r => r.2 <= default 0 (INVENTORY_DATA s !! r.1)) recipe ->
  for_ recipe (check_part model) s = (inl tt, s).
Proof.
  intros H. pose proof (check_part_loop_result model recipe s) as Hc.
  destruct (for_ recipe (check_part model) s) as [[[]|o] s1].
  - destruct Hc as [-> _]. reflexivity.
  - destruct Hc as (_ & _ & Hn). contradiction.
Qed.



(** The assembly reports the first part of the recipe that is short, with
    the amount needed and the amount at hand (0 for a part the ledger does
    not have), and changes nothing. *)
Theorem assemble_bike_first_short_part model pre part needed post s :
  assoc model BIKE_TYPE_PARTS = Some (pre ++ (part, needed) :: post) ->
  Forall (fun r => r.2 <= default 0 (INVENTORY_DATA s !! r.1)) pre ->
  default 0 (INVENTORY_DATA s !! part) < needed ->
  assemble_bike model s =
  (Warned (NotEnoughParts model part needed (default 0 (INVENTORY_DATA s !! part))), s).
Proof.
  intros Er Hpre Hlt.
  assert (Hloop : for_ (pre ++ (part, needed) :: post) (check_part model) s =
    (inr (Warned (NotEnoughParts model part needed
                    (default 0 (INVENTORY_DATA s !! part)))), s)).
  { rewrite for_app. unfold bind at 1.
    rewrite (check_part_loop_sufficient _ _ _ Hpre). cbn [for_].
    unfold bind at 1. rewrite check_part_cases. cbn [fst snd].
    destruct (Z.ltb_spec (default 0 (INVENTORY_DATA s !! part)) needed); [|lia].
    reflexivity. }
  unfold assemble_bike. rewrite Er.
  rewrite handler_run. unfold bind at 1. rewrite Hloop. reflexivity.
Qed.

Lemma assemble_bike_first_short_part_witness :
  assemble_bike "Electric" (set_INVENTORY_DATA (delete "Motors") initial_state) =
  (Warned (NotEnoughParts "Electric" "Motors" 1 0),
   set_INVENTORY_DATA (delete "Motors") initial_state).
Proof.
  apply (assemble_bike_first_short_part "Electric"
           [("Tubular Steel", 2); ("Wheels", 2); ("Seats", 1); ("Gears", 1);
            ("Brakes", 1); ("Lights", 1)] "Motors" 1 []).
  - reflexivity.
  - repeat constructor; vm_compute; discriminate.
  - vm_compute. reflexivity.
Defined.

(** ** When a station completion succeeds *)



(** ** The orders of a reachable state *)

Lemma reachable_run_all ops s :
  Forall op_ok ops -> reachable s -> reachable (run_all ops s).
Proof.
  intros Hok. revert s. induction Hok as [|o ops Ho _ IH]; intros s Hs; simpl.
  - exact Hs.
  - apply IH. apply reachable_step; assumption.
Qed.

Lemma status_count_pending_rows l :
  status_count "Pending" l = length (pending_orders l).
Proof.
  unfold pending_orders. generalize 0%nat.
  induction l as [|o l IH]; intros i; simpl; [reflexivity|].
  unfold is_pending. destruct (bool_decide (o !! "status" = Some "Pending")); simpl;
    rewrite (IH (S i)); reflexivity.
Qed.

(** In every state reachable from the initial configuration each order is
    Pending or Completed and names its bike model, so the pending and the
    completed numbers of the dashboard add up to its total; and in every
    state the pending number is the number of rows of the pending orders
    table. *)
Theorem dashboard_order_summary s :
  status_count "Pending" (ORDERS s) = length (pending_orders (ORDERS s)) /\
  (reachable s ->
   orders_well_formed s /\
   let '(total, pending, completed) := order_summary s in
   (pending + completed = total)%nat).
Proof.
  split; [apply status_count_pending_rows|].
  intros Hr. pose proof (reachable_orders_well_formed s Hr) as Hwf.
  split; [exact Hwf|]. unfold order_summary.
  unfold orders_well_formed in Hwf.
  induction Hwf as [|o l [[Hp|Hc] _] _ IH]; simpl; [reflexivity | |].
  - rewrite (bool_decide_eq_true_2 _ Hp).
    rewrite bool_decide_eq_false_2 by (rewrite Hp; discriminate). lia.
  - rewrite (bool_decide_eq_true_2 _ Hc).
    rewrite bool_decide_eq_false_2 by (rewrite Hc; discriminate). lia.
Qed.

Lemma dashboard_order_summary_witness :
  let s := run_all [SubmitOrder tour_form; SubmitOrder blank_form; Assemble "Tour";
                    Fulfill 0] initial_state in
  let '(total, pending, completed) := order_summary s in
  (pending + completed = total)%nat.
Proof.
  intros s.
  destruct (dashboard_order_summary s) as [_ H].
  destruct H as [_ H]; [|exact H].
  apply reachable_run_all; [repeat constructor | apply reachable_initial].
Defined.

(** ** The pending orders table *)

Lemma pending_from_completed i l row ref o :
  pending_from i l !! row = Some (ref, o) ->
  pending_from i (alter (insert "status" "Completed") (ref - i)%nat l) =
  delete row (pending_from i l).
Proof.
  revert i row. induction l as [|x l IH]; intros i row; simpl; [discriminate|].
  destruct (is_pending x) eqn:Ex.
  - destruct row as [|row]; simpl.
    + intros [= <- <-]. rewrite Nat.sub_diag. simpl.
      assert (is_pending (<["status" := "Completed"]> x) = false) as ->.
      { unfold is_pending. apply bool_decide_eq_false_2.
        rewrite lookup_insert_eq. discriminate. }
      reflexivity.
    + intros H. pose proof (pending_from_lookup _ _ _ _ _ H) as (Hle & _ & _).
      replace (ref - i)%nat with (S (ref - S i)) by lia. simpl.
      rewrite Ex. f_equal. apply IH. exact H.
  - intros H. pose proof (pending_from_lookup _ _ _ _ _ H) as (Hle & _ & _).
    replace (ref - i)%nat with (S (ref - S i)) by lia. simpl.
    rewrite Ex. apply IH. exact H.
Qed.

Lemma status_count_completed_alter l ref o :
  l !! ref = Some o -> o !! "status" = Some "Pending" ->
  status_count "Completed" (alter (insert "status" "Completed") ref l) =
  S (status_count "Completed" l).
Proof.
  revert ref. induction l as [|x l IH]; intros ref; [discriminate|].
  destruct ref as [|ref].
  - intros [= ->] Hp.
    change (alter (insert "status" "Completed") 0%nat (o :: l))
      with (<["status" := "Completed"]> o :: l).
    cbn [status_count].
    rewrite bool_decide_eq_true_2 by apply lookup_insert_eq.
    rewrite bool_decide_eq_false_2 by (rewrite Hp; discriminate). reflexivity.
  - intros Hl Hp.
    change (alter (insert "status" "Completed") (S ref) (x :: l))
      with (x :: alter (insert "status" "Completed") ref l).
    cbn [status_count]. rewrite (IH _ Hl Hp). lia.
Qed.

(** A fulfilment that succeeds removes exactly the row it was called for
    from the pending orders table and keeps the other rows in order, so
    that the rows below move up by one; the pending number drops by 1, the
    completed number grows by 1 and the number of orders stays. *)
Theorem fulfilled_row_leaves_table row_index s :
  (mark_completed row_index s).1 = Refreshed ->
  let s' := (mark_completed row_index s).2 in
  pending_orders (ORDERS s') = delete row_index (pending_orders (ORDERS s)) /\
  S (status_count "Pending" (ORDERS s')) = status_count "Pending" (ORDERS s) /\
  status_count "Completed" (ORDERS s') = S (status_count "Completed" (ORDERS s)) /\
  length (ORDERS s') = length (ORDERS s).
Proof.
  rewrite mark_completed_cases.
  destruct (pending_orders (ORDERS s) !! row_index) as [[ref o]|] eqn:Ep;
    [|discriminate].
  destruct (o !! "bike_model"); [|discriminate]. cbv zeta.
  destruct (_ <? 1); [discriminate|]. intros _. simpl.
  assert (Hrows : pending_orders (alter (insert "status" "Completed") ref (ORDERS s)) =
                  delete row_index (pending_orders (ORDERS s))).
  { unfold pending_orders in *.
    rewrite <- (pending_from_completed 0 _ _ _ _ Ep). rewrite Nat.sub_0_r.
    reflexivity. }
  split; [exact Hrows|]. split; [|split].
  - rewrite !status_count_pending_rows, Hrows. rewrite length_delete.
    + apply lookup_lt_Some in Ep. lia.
    + rewrite Ep. eauto.
  - apply pending_orders_lookup in Ep as [Hl Hp].
    eapply status_count_completed_alter; eassumption.
  - apply length_alter.
Qed.

Lemma fulfilled_row_leaves_table_witness :
  let s := run_all [SubmitOrder tour_form; SubmitOrder tour_form; Assemble "Tour"]
             initial_state in
  pending_orders (ORDERS (mark_completed 0 s).2) =
  delete 0%nat (pending_orders (ORDERS s)).
Proof.
  intros s.
  destruct (fulfilled_row_leaves_table 0 s) as [H _]; [reflexivity | exact H].
Defined.

(** A submitted order becomes the last row of the pending orders table,
    after the rows that were there; its reference is the position it was
    appended at. *)
Theorem submitted_order_is_last_row f s :
  pending_orders (ORDERS (submit_order f s).2) =
  pending_orders (ORDERS s) ++ [(length (ORDERS s), new_order f)].
Proof.
  rewrite submit_order_cases. unfold refreshed. cbn [snd ORDERS set_ORDERS].
  unfold pending_orders. rewrite pending_from_app. cbn [pending_from Nat.add].
  assert (is_pending (new_order f) = true) as ->.
  { apply bool_decide_eq_true_2. apply new_order_status. }
  reflexivity.
Qed.

(** ** Finished bikes are accounted for *)








(** ** In a reachable state the widgets' arguments never raise *)

(** In every state reachable from the initial configuration: completing a
    station of the requirement table and assembling a model of the recipe
    catalog end in a refresh or a warning; replenishing a part of the
    initial parts ledger always succeeds; a fulfilment never raises. *)
Theorem reachable_handlers_do_not_raise s :
  reachable s ->
  (forall station_key e,
     is_Some (assoc station_key STATION_REQUIREMENTS) ->
     (record_station_completion station_key s).1 <> Raised e) /\
  (forall model e,
     is_Some (assoc model BIKE_TYPE_PARTS) ->
     (assemble_bike model s).1 <> Raised e) /\
  (forall comp amount,
     is_Some (INVENTORY_DATA initial_state !! comp) ->
     (replenish_stock comp amount s).1 = Refreshed) /\
  (forall row_index e, (mark_completed row_index s).1 <> Raised e).
Proof.
  intros Hr. destruct (reachable_well_keyed s Hr) as [Hst Hbk].
  pose proof (reachable_name_models s Hr) as Hnm.
  assert (Hok : forall s', ORDERS s' = ORDERS s -> (refreshed s').1 = Refreshed).
  { intros s' Ho. unfold refreshed. cbn [fst].
    rewrite (refresh_outcome_orders s s' Ho). apply refresh_outcome_named, Hnm. }
  split; [|split; [|split]].
  - intros station_key e [reqs E].
    destruct (record_station_completion_cases station_key s)
      as [(w' & -> & _) | (_ & s1 & (_ & _ & Ho) & Hl & ->)]; [discriminate|].
    destruct (Hst _ _ E) as [v Hv].
    assert (is_Some (PRODUCTION_STATUS s1 !! station_key)) as [v1 ->].
    { change (is_Some (ledger StationRef s1 !! station_key)).
      rewrite Hl. apply deducted_is_Some. simpl. eauto. }
    rewrite Hok by exact Ho. discriminate.
  - intros model e [recipe E].
    pose proof (assemble_bike_cases model s) as Hc. rewrite E in Hc.
    destruct Hc as [(w' & -> & _) | (_ & s1 & (_ & Hb & Ho) & _ & _ & ->)];
      [discriminate|].
    destruct (Hbk _ _ E) as [v Hv]. rewrite Hb, Hv.
    rewrite Hok by exact Ho. discriminate.
  - intros comp amount Hc. apply (reachable_inventory_keys s comp Hr) in Hc.
    destruct Hc as [v Hv]. rewrite replenish_stock_cases, Hv.
    apply Hok. reflexivity.
  - intros row_index e. rewrite mark_completed_cases.
    destruct (pending_orders (ORDERS s) !! row_index) as [[ref o]|] eqn:Ep;
      [|discriminate].
    apply pending_orders_lookup in Ep as [Hl _].
    unfold orders_name_models in Hnm. rewrite Forall_forall in Hnm.
    destruct (Hnm o) as [model Hm].
    { apply list_elem_of_lookup. eauto. }
    rewrite Hm. cbv zeta. destruct (_ <? 1); [discriminate|].
    unfold refreshed. cbn [fst].
    rewrite (refresh_outcome_completed s _ ref) by reflexivity.
    rewrite refresh_outcome_named; [discriminate|].
    unfold orders_name_models. rewrite Forall_forall. exact Hnm.
Qed.

Lemma reachable_handlers_do_not_raise_witness :
  (replenish_stock "Lights" 7 (run (Assemble "Sport") initial_state).2).1 = Refreshed.
Proof.
  destruct (reachable_handlers_do_not_raise (run (Assemble "Sport") initial_state).2)
    as (_ & _ & H & _).
  - apply reachable_step; [apply reachable_initial | exact I].
  - apply H. vm_compute. eauto.
Defined.

(** ** Building a bike to order *)



(** ** Saving and loading *)

(** Loading what was saved restores every dictionary of the ledger,
    whatever the state at the time of loading. *)
Theorem save_load_round_trip s s0 :
  _load_data (_save_data s) s0 = s.
Proof. destruct s. reflexivity. Qed.

(** ** User management *)

Lemma create_user_cases uname pwd role s :
  create_user uname pwd role s =
  if decide (uname = "") then (InputError, s)
  else match USER_DB s !! uname with
       | Some _ => (DuplicateUser, s)
       | None => (UserCreated, set_USER_DB (insert uname (pwd, role)) s)
       end.
Proof. reflexivity. Qed.

(** A user is created exactly when the name is not empty and not taken;
    the new user then has the given password and role; an existing user is
    never overwritten or removed, and nothing but the user database
    changes. *)
Theorem create_user_adds_fresh_user uname pwd role s :
  let r := create_user uname pwd role s in
  (r.1 = UserCreated <-> uname <> "" /\ USER_DB s !! uname = None) /\
  (r.1 = UserCreated -> USER_DB r.2 !! uname = Some (pwd, role)) /\
  (forall u x, USER_DB s !! u = Some x -> USER_DB r.2 !! u = Some x) /\
  (r.1 <> UserCreated -> r.2 = s) /\
  INVENTORY_DATA r.2 = INVENTORY_DATA s /\ BIKE_INVENTORY r.2 = BIKE_INVENTORY s /\
  ORDERS r.2 = ORDERS s /\ PRODUCTION_STATUS r.2 = PRODUCTION_STATUS s.
Proof.
  intros r. unfold r. rewrite create_user_cases.
  destruct (decide (uname = "")) as [->|Hne]; simpl.
  { repeat split; try done. intros [H _]. contradiction. }
  destruct (USER_DB s !! uname) as [y|] eqn:Eu; simpl.
  { repeat split; try done. intros [_ H]. discriminate. }
  split; [done|]. split; [intros _; apply lookup_insert_eq|].
  split; [|done].
  intros u x Hu. rewrite lookup_insert_ne; [exact Hu|]. congruence.
Qed.

Lemma create_user_adds_fresh_user_witness :
  USER_DB (create_user "quality1" "q123" "ProductionWorker" initial_state).2
    !! "quality1" = Some ("q123", "ProductionWorker").
Proof.
  destruct (create_user_adds_fresh_user "quality1" "q123" "ProductionWorker"
              initial_state) as (_ & H & _).
  apply H. reflexivity.
Defined.

Lemma create_user_keeps_admin uname pwd role s x :
  USER_DB s !! "admin" = Some x ->
  USER_DB (create_user uname pwd role s).2 !! "admin" = Some x.
Proof.
  intros Ha. rewrite create_user_cases.
  destruct (decide (uname = "")); [exact Ha|].
  destruct (USER_DB s !! uname) eqn:Eu; [exact Ha|]. simpl.
  rewrite lookup_insert_ne; [exact Ha|]. intros ->. congruence.
Qed.

(** Whatever users are created and deleted from the initial configuration,
    the administrator keeps logging in with the initial password and
    role. *)
Theorem admin_login_survives acts :
  attempt_login "admin" "password" "Admin" (run_user_actions acts initial_state) =
  Some "Admin".
Proof.
  assert (H : forall s, USER_DB s !! "admin" = Some ("password", "Admin") ->
            USER_DB (run_user_actions acts s) !! "admin" = Some ("password", "Admin")).
  { induction acts as [|a acts IH]; intros s Hs; simpl; [exact Hs|].
    apply IH. destruct a; simpl.
    - apply create_user_keeps_admin, Hs.
    - rewrite delete_user_keeps_admin. exact Hs. }
  unfold attempt_login. rewrite (H initial_state eq_refl).
  reflexivity.
Qed.

(** After a user is created the login succeeds with exactly the password
    and role given, and with no other; after a user is deleted no login
    with that name succeeds. *)
Theorem login_follows_user_management uname pwd role s :
  ((create_user uname pwd role s).1 = UserCreated ->
   forall password selected_role,
     attempt_login uname password selected_role (create_user uname pwd role s).2 =
     if decide (password = pwd /\ selected_role = role) then Some role else None) /\
  ((delete_user uname true s).1 = Refreshed ->
   forall password selected_role,
     attempt_login uname password selected_role (delete_user uname true s).2 = None).
Proof.
  split.
  - rewrite create_user_cases. destruct (decide (uname = "")); [discriminate|].
    destruct (USER_DB s !! uname); [discriminate|]. intros _ password selected_role.
    unfold attempt_login. simpl. rewrite lookup_insert_eq. reflexivity.
  - rewrite delete_user_cases. destruct (USER_DB s !! uname); [|discriminate].
    destruct (decide (uname = "admin")); [discriminate|].
    intros _ password selected_role. unfold attempt_login, refreshed. simpl.
    rewrite lookup_delete_eq. reflexivity.
Qed.

Lemma login_follows_user_management_witness :
  attempt_login "worker1" "w123" "ProductionWorker"
    (delete_user "worker1" true initial_state).2 = None.
Proof.
  destruct (login_follows_user_management "worker1" "" "" initial_state) as [_ H].
  apply H. reflexivity.
Defined.

(** Creating a user under a free name other than admin and deleting that
    user again leaves the state as it was. *)
Theorem create_then_delete_user uname pwd role s :
  USER_DB s !! uname = None -> uname <> "admin" ->
  (delete_user uname true (create_user uname pwd role s).2).2 = s.
Proof.
  intros Hu Hna. rewrite create_user_cases.
  destruct (decide (uname = "")) as [->|Hne].
  - simpl. rewrite delete_user_cases, Hu. reflexivity.
  - rewrite Hu. simpl. rewrite delete_user_cases. simpl.
    rewrite lookup_insert_eq. rewrite decide_False by assumption. simpl.
    destruct s. unfold set_USER_DB. simpl in *. f_equal.
    rewrite delete_insert_eq. apply delete_id. exact Hu.
Qed.

Lemma create_then_delete_user_witness :
  (delete_user "temp" true (create_user "temp" "t1" "Sales" initial_state).2).2 =
  initial_state.
Proof.
  apply create_then_delete_user; [reflexivity | discriminate].
Defined.

(** ** The orders-by-model chart *)

Lemma increment_assoc model m d :
  default 0 (assoc m (increment model d)) =
  default 0 (assoc m d) + (if decide (model = m) then 1 else 0).
Proof.
  induction d as [|[k c] d IH]; simpl.
  - destruct (decide (m = model)) as [->|Hne].
    + rewrite decide_True by reflexivity. reflexivity.
    + rewrite decide_False by congruence. reflexivity.
  - destruct (decide (model = k)) as [->|Hmk]; simpl.
    + destruct (decide (m = k)) as [->|Hne]; simpl.
      * rewrite decide_True by reflexivity. reflexivity.
      * rewrite decide_False by congruence. lia.
    + destruct (decide (m = k)) as [->|Hne]; simpl.
      * rewrite decide_False by assumption. lia.
      * exact IH.
Qed.

Lemma increment_keys model d :
  forall k, k ∈ (increment model d).*1 <-> k = model \/ k ∈ d.*1.
Proof.
  induction d as [|[k' c] d IH]; intros k; simpl.
  - rewrite list_elem_of_singleton. rewrite elem_of_nil. tauto.
  - destruct (decide (model = k')) as [->|Hne]; simpl.
    + rewrite !elem_of_cons. tauto.
    + rewrite !elem_of_cons, IH. tauto.
Qed.

Lemma increment_NoDup model d : NoDup d.*1 -> NoDup (increment model d).*1.
Proof.
  induction d as [|[k c] d IH]; simpl; intros Hnd.
  - repeat constructor. apply not_elem_of_nil.
  - apply NoDup_cons in Hnd as [Hk Hnd].
    destruct (decide (model = k)) as [->|Hne]; simpl.
    + apply NoDup_cons. auto.
    + apply NoDup_cons. split; [|auto].
      rewrite increment_keys. intros [->|H]; contradiction.
Qed.

Lemma increment_sum model d : sum_counts (increment model d) = sum_counts d + 1.
Proof.
  induction d as [|[k c] d IH]; simpl; [reflexivity|].
  destruct (decide (model = k)); simpl; lia.
Qed.

Lemma increment_positive model d :
  Forall (fun e => 1 <= e.2) d -> Forall (fun e => 1 <= e.2) (increment model d).
Proof.
  induction 1 as [|[k c] d Hc Hd IH]; simpl.
  - repeat constructor. simpl. lia.
  - destruct (decide (model = k)); constructor; simpl in *; auto; lia.
Qed.

Lemma count_models_spec orders :
  forall d,
    Forall (fun o : order => is_Some (o !! "bike_model")) orders ->
    NoDup d.*1 -> Forall (fun e => 1 <= e.2) d ->
    exists bars,
      count_models orders d = inr bars /\
      NoDup bars.*1 /\
      Forall (fun e => 1 <= e.2) bars /\
      (forall m, default 0 (assoc m bars) =
                 default 0 (assoc m d) + orders_of_model m orders) /\
      sum_counts bars = sum_counts d + Z.of_nat (length orders).
Proof.
  induction orders as [|o orders IH]; intros d Hall Hnd Hpos; simpl.
  - exists d. repeat split; auto; intros; lia.
  - apply Forall_cons in Hall as [[model Hm] Hall]. rewrite Hm.
    destruct (IH (increment model d) Hall (increment_NoDup _ _ Hnd)
                 (increment_positive _ _ Hpos))
      as (bars & -> & Hnd' & Hpos' & Hcount & Hsum).
    exists bars. split; [reflexivity|]. split; [exact Hnd'|]. split; [exact Hpos'|].
    split.
    + intros m. rewrite Hcount, increment_assoc.
      destruct (decide (model = m)) as [->|Hne].
      * rewrite bool_decide_eq_true_2 by reflexivity. lia.
      * rewrite bool_decide_eq_false_2 by congruence. lia.
    + rewrite Hsum, increment_sum. lia.
Qed.

(** When every order names its bike model, the chart is built: no model
    has two bars, every bar is at least 1 and is the number of orders for
    its model, a model without order has no bar, and the bars add up to
    the number of orders.  An order without bike model makes the chart
    raise. *)
Theorem orders_bar_chart_counts s :
  (Forall (fun o : order => is_Some (o !! "bike_model")) (ORDERS s) ->
   exists bars,
     create_orders_bar_chart s = inr bars /\
     NoDup bars.*1 /\
     Forall (fun e => 1 <= e.2) bars /\
     (forall m, default 0 (assoc m bars) = orders_of_model m (ORDERS s)) /\
     sum_counts bars = Z.of_nat (length (ORDERS s))) /\
  (forall l1 o l2, ORDERS s = l1 ++ o :: l2 ->
     Forall (fun o : order => is_Some (o !! "bike_model")) l1 ->
     o !! "bike_model" = None ->
     create_orders_bar_chart s = inl (KeyError "bike_model")).
Proof.
  unfold create_orders_bar_chart. split.
  - intros Hall.
    destruct (count_models_spec (ORDERS s) [] Hall) as (bars & E & H1 & H2 & H3 & H4).
    { constructor. }
    { constructor. }
    exists bars. split; [exact E|]. split; [exact H1|]. split; [exact H2|].
    split; [|simpl in H4; lia].
    intros m. rewrite H3. simpl. lia.
  - intros l1 o l2 -> Hall Ho. generalize (@nil (string * Z)).
    induction Hall as [|x l1 [m Hm] _ IH]; intros d; simpl.
    + rewrite Ho. reflexivity.
    + rewrite Hm. apply IH.
Qed.

Lemma orders_bar_chart_counts_witness :
  exists bars,
    create_orders_bar_chart
      (run_all [SubmitOrder tour_form; SubmitOrder blank_form; SubmitOrder tour_form]
         initial_state) = inr bars /\
    sum_counts bars = 3.
Proof.
  destruct (orders_bar_chart_counts
              (run_all [SubmitOrder tour_form; SubmitOrder blank_form;
                        SubmitOrder tour_form] initial_state)) as [H _].
  destruct H as (bars & E & _ & _ & _ & Hs).
  - repeat constructor; vm_compute; eauto.
  - exists bars. split; [exact E | exact Hs].
Defined.

(** ** An order without bike model *)




